(** * TUF role metadata model ([tuf/api/metadata.py])

    A shallow embedding of the metadata container classes: [Metadata] with its
    signature list, the four [Signed] payloads ([Root], [Timestamp],
    [Snapshot], [Targets]), and the helper classes [Key], [Role],
    [DelegatedRole] and [Delegations].

    Conventions of the embedding.
    - A wire record is a Python value as a JSON decoder produces it: [None],
      booleans, integers, strings, lists and string-keyed dicts.  Canonical
      JSON has no floating point numbers, and neither has this model.
    - A dict is a finite map with extensional equality, which is Python's
      [==] on dicts.  Where a loop walks a dict the model walks it in the
      order of [map_to_list]; the order only decides which of several failing
      entries is reported first.
    - A field that the source only stores and writes back is kept as the
      [value] it came with.  A field that the source inspects is given the
      type its annotation states ([version : int], [keyids : List[str]],
      [keyval : Dict], the two strings of a signature); a wire value of
      another shape makes the model raise [TypeError] or [AttributeError],
      also in the few places where Python would carry the value along.  No
      property below rests on such a failure.
    - Objects are values: two names of one Python object are two equal
      values here.  The payload classes hand out no aliases of their parts,
      and the properties are about one object at a time.
    - [from_dict] methods pop entries out of the dict they are given.  They
      are written in a state-and-exception monad over that dict, so each
      returns the dict as the call leaves it together with the outcome.
    - Code the module imports (the expiry string parser of [tuf.formats],
      [datetime.isoformat], the iteration order of a Python [set], the
      serializer of the signed part, [verify_signature] and the signers of
      securesystemslib) is taken as a parameter. *)

From stdpp Require Import gmap strings list fin_maps.
From Stdlib Require Import ZArith.

#[local] Set Warnings "-register-all".
#[local] Open Scope Z_scope.

(** ** Python values, exceptions and outcomes *)

Inductive value : Type :=
  | VNone
  | VBool (b : bool)
  | VInt (z : Z)
  | VStr (s : string)
  | VList (l : list value)
  | VDict (d : gmap string value).

Abbreviation dict := (gmap string value).

(** What a [tuf.exceptions.Error] reports: [Metadata.verify] found no
    signature of the key, or several. *)
Inductive error_message : Type :=
  | NoSignature
  | ManySignatures (n : nat).

Inductive exn : Type :=
  (* builtins *)
  | KeyError
  | ValueError
  | TypeError
  | AttributeError
  (* tuf.exceptions *)
  | Error (why : error_message)
  | UnsignedMetadataError
  | LengthOrHashMismatchError
  (* securesystemslib.exceptions *)
  | FormatError
  | CryptoError
  | UnsupportedAlgorithmError
  (* tuf.api.serialization *)
  | SerializationError
  (* builtins, once more *)
  | OverflowError.

Inductive result (A : Type) : Type :=
  | Ok (a : A)
  | Raise (e : exn).
Arguments Ok {A} a.
Arguments Raise {A} e.

#[global] Instance result_ret : MRet result := λ A a, Ok a.
#[global] Instance result_bind : MBind result := λ A B f r,
  match r with
  | Ok a => f a
  | Raise e => Raise e
  end.
#[global] Instance result_fmap : FMap result := λ A B f r,
  match r with
  | Ok a => Ok (f a)
  | Raise e => Raise e
  end.

(** Truth value of a Python object used as a condition. *)
Definition truthy (v : value) : bool :=
  match v with
  | VNone => false
  | VBool b => b
  | VInt z => negb (z =? 0)
  | VStr s => negb (String.eqb s "")
  | VList l => match l with [] => false | _ => true end
  | VDict d => negb (bool_decide (d = ∅))
  end.

(** [x.pop(k)] and [x.items()] need [x] to be a dict; a list has a [pop] that
    takes an index, the other values have neither attribute. *)
Definition pop_receiver (v : value) : result dict :=
  match v with
  | VDict d => Ok d
  | VList _ => Raise TypeError
  | _ => Raise AttributeError
  end.

Definition dict_receiver (v : value) : result dict :=
  match v with
  | VDict d => Ok d
  | _ => Raise AttributeError
  end.

(** [x[k]] with a string [k]. *)
Definition subscript (v : value) (k : string) : result value :=
  match v with
  | VDict d => match d !! k with Some x => Ok x | None => Raise KeyError end
  | _ => Raise TypeError
  end.

(** A [for] loop over a value: a list yields its items, a dict its keys, a
    string its characters. *)
Definition iterate (v : value) : result (list value) :=
  match v with
  | VList l => Ok l
  | VDict d => Ok (VStr <$> (map_to_list d).*1)
  | VStr s => Ok ((λ c, VStr (String c EmptyString)) <$> String.list_ascii_of_string s)
  | _ => Raise TypeError
  end.

(** [v == s] for a string [s]. *)
Definition is_str (s : string) (v : value) : bool :=
  match v with
  | VStr s' => bool_decide (s' = s)
  | _ => false
  end.

Definition as_int (v : value) : result Z :=
  match v with
  | VInt z => Ok z
  | _ => Raise TypeError
  end.

Definition as_str (v : value) : result string :=
  match v with
  | VStr s => Ok s
  | _ => Raise TypeError
  end.

(** Run [f] on the items of a list, stopping at the first exception. *)
Fixpoint for_each {A B} (f : A → result B) (l : list A) : result (list B) :=
  match l with
  | [] => Ok []
  | a :: l => b ← f a; bs ← for_each f l; Ok (b :: bs)
  end.

(** Run [f] on the values of a dict, keeping the keys. *)
Definition for_items {A B} (f : A → result B) (m : gmap string A)
    : result (gmap string B) :=
  list_to_map <$> for_each (λ kv, b ← f kv.2; Ok (kv.1, b)) (map_to_list m).

Definition as_str_list (v : value) : result (list string) :=
  match v with
  | VList l => for_each as_str l
  | _ => Raise TypeError
  end.

Definition str_list (l : list string) : value := VList (VStr <$> l).

(** ** Calls that mutate an object

    A method that changes the object it works on and may raise: it maps the
    object before the call to the object after the call and the outcome.  An
    exception keeps whatever was changed before it was raised. *)

Definition Mutating (S A : Type) : Type := S → S * result A.

#[global] Instance mutating_ret {S} : MRet (Mutating S) := λ A a s, (s, Ok a).
#[global] Instance mutating_bind {S} : MBind (Mutating S) := λ A B f m s,
  match m s with
  | (s', Ok a) => f a s'
  | (s', Raise e) => (s', Raise e)
  end.

(** A computation that leaves the object alone. *)
Definition pure {S A} (r : result A) : Mutating S A := λ s, (s, r).

(** The object as it stands. *)
Definition self {S} : Mutating S S := λ s, (s, Ok s).

(** An update of the object that cannot fail. *)
Definition modify {S} (f : S → S) : Mutating S () := λ s, (f s, Ok ()).

(** A [from_dict] works on the dict it was handed. *)
Abbreviation Popping := (Mutating dict).

(** [d.pop(k)] *)
Definition pop (k : string) : Popping value := λ d,
  match d !! k with
  | Some v => (delete k d, Ok v)
  | None => (d, Raise KeyError)
  end.

(** [d.pop(k, None)] *)
Definition pop_or_None (k : string) : Popping value := λ d,
  match d !! k with
  | Some v => (delete k d, Ok v)
  | None => (d, Ok VNone)
  end.

(** [d[k]] *)
Definition getitem (k : string) : Popping value := λ d,
  (d, subscript (VDict d) k).

(** [cls.from_dict(v)] for a nested wire value [v]: the nested dict is popped
    from, and what the call leaves of it lives on inside the object built. *)
Definition from_value {A} (from_dict : Popping A) (v : value) : result A :=
  d ← pop_receiver v; (from_dict d).2.

(** ** Date and time *)

(** A naive [datetime.datetime].  Python orders two of them by comparing
    (year, month, day, hour, minute, second, microsecond) field by field. *)
Record datetime : Type := {
  year : Z; month : Z; day : Z;
  hour : Z; minute : Z; second : Z; microsecond : Z
}.

Definition fields (t : datetime) : list Z :=
  [year t; month t; day t; hour t; minute t; second t; microsecond t].

Fixpoint cmp_fields (a b : list Z) : comparison :=
  match a, b with
  | [], [] => Eq
  | [], _ :: _ => Lt
  | _ :: _, [] => Gt
  | x :: a, y :: b =>
      match x ?= y with
      | Eq => cmp_fields a b
      | c => c
      end
  end.

Definition datetime_cmp (a b : datetime) : comparison :=
  cmp_fields (fields a) (fields b).

(** [a >= b] *)
Definition datetime_ge (a b : datetime) : bool :=
  match datetime_cmp a b with
  | Lt => false
  | _ => true
  end.

(** [a < b] *)
Definition datetime_lt (a b : datetime) : bool :=
  match datetime_cmp a b with
  | Lt => true
  | _ => false
  end.

(** What the constructor of [datetime] demands of the fields: a date of the
    proleptic Gregorian calendar and a time of day. *)
Definition is_leap (y : Z) : bool :=
  (y `mod` 4 =? 0) && (negb (y `mod` 100 =? 0) || (y `mod` 400 =? 0)).

Definition days_in_month (y m : Z) : Z :=
  if m =? 2 then (if is_leap y then 29 else 28)
  else if (m =? 4) || (m =? 6) || (m =? 9) || (m =? 11) then 30
  else 31.

Definition well_formed (t : datetime) : bool :=
  (1 <=? year t) && (year t <=? 9999) &&
  (1 <=? month t) && (month t <=? 12) &&
  (1 <=? day t) && (day t <=? days_in_month (year t) (month t)) &&
  (0 <=? hour t) && (hour t <? 24) &&
  (0 <=? minute t) && (minute t <? 60) &&
  (0 <=? second t) && (second t <? 60) &&
  (0 <=? microsecond t) && (microsecond t <? 1000000).

(** The point of time a datetime names, in microseconds since the start of
    year 1 ([toordinal] is the day number, counting from 1). *)
Definition days_before_year (y : Z) : Z :=
  let y := y - 1 in y * 365 + y `div` 4 - y `div` 100 + y `div` 400.

Definition days_before_month (y m : Z) : Z :=
  foldr Z.add 0 (days_in_month y <$> seqZ 1 (m - 1)).

Definition toordinal (t : datetime) : Z :=
  days_before_year (year t) + days_before_month (year t) (month t) + day t.

Definition instant (t : datetime) : Z :=
  (((toordinal t * 24 + hour t) * 60 + minute t) * 60 + second t) * 1000000
  + microsecond t.

(** ** What the module imports *)

Class Runtime : Type := {
  (** [list(s)] for a set [s] of strings: the order in which Python walks
      it, taken as a function of the members of the set.  CPython's order
      also depends on how the set was built, which this leaves out. *)
  set_order : gset string → list string;
  (** [tuf.formats.expiry_string_to_datetime] *)
  expiry_string_to_datetime : value → result datetime;
  (** [datetime.isoformat] *)
  isoformat : datetime → string
}.

(** ** [securesystemslib.signer.Signature] *)

(** The signature container of securesystemslib: a key id and a signature
    value; [from_dict] reads the entries "keyid" and "sig" of a record and
    [to_dict] writes the two. *)
Module Signature.
Record t : Type := { keyid : string; signature : string }.

Definition from_dict (signature_dict : value) : result t :=
  k ← subscript signature_dict "keyid";
  s ← subscript signature_dict "sig";
  k ← as_str k;
  s ← as_str s;
  Ok {| keyid := k; signature := s |}.

Definition to_dict (s : t) : dict :=
  {[ "keyid" := VStr (keyid s); "sig" := VStr (signature s) ]}.
End Signature.

(** ** [class Key] *)

Module Key.
Record t : Type := {
  keytype : value;
  scheme : value;
  keyval : dict;
  unrecognized_fields : dict
}.

Definition init (keytype scheme keyval : value) (unrecognized_fields : dict)
    : result t :=
  kv ← dict_receiver keyval;
  if truthy (default VNone (kv !! "public")) then
    Ok {| keytype := keytype; scheme := scheme; keyval := kv;
          unrecognized_fields := unrecognized_fields |}
  else Raise ValueError.

Definition from_dict : Popping t :=
  keytype ← pop "keytype";
  scheme ← pop "scheme";
  keyval ← pop "keyval";
  key_dict ← self;
  pure (init keytype scheme keyval key_dict).

Definition to_dict (k : t) : dict :=
  unrecognized_fields k ∪
  {[ "keytype" := keytype k; "scheme" := scheme k;
     "keyval" := VDict (keyval k) ]}.
End Key.

(** ** [class Role] *)

Module Role.
Record t : Type := {
  keyids : gset string;
  threshold : value;
  unrecognized_fields : dict
}.

Definition init (keyids threshold : value) (unrecognized_fields : dict)
    : result t :=
  ids ← as_str_list keyids;
  let keyids_set : gset string := list_to_set ids in
  if bool_decide (size keyids_set ≠ length ids) then Raise ValueError
  else Ok {| keyids := keyids_set; threshold := threshold;
             unrecognized_fields := unrecognized_fields |}.

Definition from_dict : Popping t :=
  keyids ← pop "keyids";
  threshold ← pop "threshold";
  role_dict ← self;
  pure (init keyids threshold role_dict).

Definition to_dict `{Runtime} (r : t) : dict :=
  unrecognized_fields r ∪
  {[ "keyids" := str_list (set_order (keyids r));
     "threshold" := threshold r ]}.
End Role.

(** ** [class DelegatedRole(Role)] *)

Module DelegatedRole.
Record t : Type := {
  role : Role.t;
  name : value;
  terminating : value;
  paths : value;
  path_hash_prefixes : value
}.

Definition init (name keyids threshold terminating paths
      path_hash_prefixes : value) (unrecognized_fields : dict) : result t :=
  base ← Role.init keyids threshold unrecognized_fields;
  if truthy paths && truthy path_hash_prefixes then Raise ValueError
  else Ok {| role := base; name := name; terminating := terminating;
             paths := paths; path_hash_prefixes := path_hash_prefixes |}.

Definition from_dict : Popping t :=
  name ← pop "name";
  keyids ← pop "keyids";
  threshold ← pop "threshold";
  terminating ← pop "terminating";
  paths ← pop_or_None "paths";
  path_hash_prefixes ← pop_or_None "path_hash_prefixes";
  role_dict ← self;
  pure (init name keyids threshold terminating paths path_hash_prefixes
          role_dict).

Definition to_dict `{Runtime} (r : t) : dict :=
  let base_role_dict := Role.to_dict (role r) in
  let res_dict :=
    base_role_dict ∪ {[ "name" := name r; "terminating" := terminating r ]} in
  if truthy (paths r) then <["paths" := paths r]> res_dict
  else if truthy (path_hash_prefixes r) then
    <["path_hash_prefixes" := path_hash_prefixes r]> res_dict
  else res_dict.
End DelegatedRole.

(** ** [class Delegations] *)

Module Delegations.
Record t : Type := {
  keys : gmap string Key.t;
  roles : list DelegatedRole.t;
  unrecognized_fields : dict
}.

Definition from_dict : Popping t :=
  keys ← pop "keys";
  keys_res ← pure (items ← dict_receiver keys;
                   for_items (from_value Key.from_dict) items);
  roles ← pop "roles";
  roles_res ← pure (items ← iterate roles;
                    for_each (from_value DelegatedRole.from_dict) items);
  delegations_dict ← self;
  mret {| keys := keys_res; roles := roles_res;
          unrecognized_fields := delegations_dict |}.

Definition to_dict `{Runtime} (d : t) : dict :=
  let keys := (λ key, VDict (Key.to_dict key)) <$> keys d in
  let roles := (λ role_obj, VDict (DelegatedRole.to_dict role_obj)) <$> roles d in
  unrecognized_fields d ∪ {[ "keys" := VDict keys; "roles" := VList roles ]}.
End Delegations.

(** ** [class Signed]: what the four payloads share *)

Module Signed.
Record t : Type := {
  version : Z;
  spec_version : value;
  expires : datetime;
  unrecognized_fields : dict
}.

Definition init (version spec_version : value) (expires : datetime)
    (unrecognized_fields : dict) : result t :=
  v ← as_int version;
  if v <=? 0 then Raise ValueError
  else Ok {| version := v; spec_version := spec_version;
             expires := expires;
             unrecognized_fields := unrecognized_fields |}.

(** [signed_type] is the class attribute [cls._signed_type]. *)
Definition _common_fields_from_dict `{Runtime} (signed_type : string)
    : Popping (value * value * datetime) :=
  _type ← pop "_type";
  if is_str signed_type _type then
    version ← pop "version";
    spec_version ← pop "spec_version";
    expires_str ← pop "expires";
    expires ← pure (expiry_string_to_datetime expires_str);
    mret (version, spec_version, expires)
  else pure (Raise ValueError).

Definition _common_fields_to_dict `{Runtime} (signed_type : string) (s : t)
    : dict :=
  unrecognized_fields s ∪
  {[ "_type" := VStr signed_type;
     "version" := VInt (version s);
     "spec_version" := spec_version s;
     "expires" := VStr (isoformat (expires s) +:+ "Z") ]}.

(** [utcnow] is what [datetime.utcnow()] returns at the time of the call. *)
Definition is_expired (utcnow : datetime) (s : t)
    (reference_time : option datetime) : bool :=
  let reference_time := default utcnow reference_time in
  datetime_ge reference_time (expires s).

(** [self.expires += delta]; [plus_delta] is the sum with the delta, which
    raises [OverflowError] where the sum is past the last datetime. *)
Definition bump_expiration (plus_delta : datetime → result datetime)
    : Mutating t () := λ s,
  match plus_delta (expires s) with
  | Ok expires => ({| version := version s; spec_version := spec_version s;
                      expires := expires;
                      unrecognized_fields := unrecognized_fields s |}, Ok ())
  | Raise e => (s, Raise e)
  end.

Definition bump_version : Mutating t () :=
  modify (λ s, {| version := version s + 1; spec_version := spec_version s;
                  expires := expires s;
                  unrecognized_fields := unrecognized_fields s |}).
End Signed.

(** ** [class Root(Signed)] *)

Module Root.
Record t : Type := {
  signed : Signed.t;
  consistent_snapshot : value;
  keys : gmap string Key.t;
  roles : gmap string Role.t
}.

Definition _signed_type : string := "root".

Definition init (version spec_version : value) (expires : datetime)
    (consistent_snapshot : value) (keys : gmap string Key.t)
    (roles : gmap string Role.t) (unrecognized_fields : dict) : result t :=
  base ← Signed.init version spec_version expires unrecognized_fields;
  Ok {| signed := base; consistent_snapshot := consistent_snapshot;
        keys := keys; roles := roles |}.

Definition from_dict `{Runtime} : Popping t :=
  common_args ← Signed._common_fields_from_dict _signed_type;
  let '(version, spec_version, expires) := common_args in
  consistent_snapshot ← pop "consistent_snapshot";
  keys ← pop "keys";
  roles ← pop "roles";
  keys ← pure (items ← dict_receiver keys;
               for_items (from_value Key.from_dict) items);
  roles ← pure (items ← dict_receiver roles;
                for_items (from_value Role.from_dict) items);
  root_dict ← self;
  pure (init version spec_version expires consistent_snapshot keys roles
          root_dict).

Definition to_dict `{Runtime} (r : t) : dict :=
  let root_dict := Signed._common_fields_to_dict _signed_type (signed r) in
  let keys := (λ key, VDict (Key.to_dict key)) <$> keys r in
  let roles := (λ role, VDict (Role.to_dict role)) <$> roles r in
  ({[ "consistent_snapshot" := consistent_snapshot r;
      "keys" := VDict keys;
      "roles" := VDict roles ]} : dict) ∪ root_dict.

Definition with_roles (r : t) (roles : gmap string Role.t) : t :=
  {| signed := signed r; consistent_snapshot := consistent_snapshot r;
     keys := keys r; roles := roles |}.

Definition with_keys (r : t) (keys : gmap string Key.t) : t :=
  {| signed := signed r; consistent_snapshot := consistent_snapshot r;
     keys := keys; roles := roles r |}.

Definition with_keyids (role : Role.t) (keyids : gset string) : Role.t :=
  {| Role.keyids := keyids; Role.threshold := Role.threshold role;
     Role.unrecognized_fields := Role.unrecognized_fields role |}.

(** [self.roles[role]] *)
Definition role_of (role : string) : Mutating t Role.t := λ r,
  match roles r !! role with
  | Some keyinfo => (r, Ok keyinfo)
  | None => (r, Raise KeyError)
  end.

(** [self.roles[role].keyids.add(keyid)] *)
Definition keyids_add (role keyid : string) : Mutating t () :=
  keyinfo ← role_of role;
  modify (λ r, with_roles r
    (<[role := with_keyids keyinfo ({[keyid]} ∪ Role.keyids keyinfo)]>
       (roles r))).

(** [self.roles[role].keyids.remove(keyid)] *)
Definition keyids_remove (role keyid : string) : Mutating t () :=
  keyinfo ← role_of role;
  if bool_decide (keyid ∈ Role.keyids keyinfo) then
    modify (λ r, with_roles r
      (<[role := with_keyids keyinfo (Role.keyids keyinfo ∖ {[keyid]})]>
         (roles r)))
  else pure (Raise KeyError).

(** [del self.keys[keyid]] *)
Definition del_key (keyid : string) : Mutating t () := λ r,
  match keys r !! keyid with
  | Some _ => (with_keys r (delete keyid (keys r)), Ok ())
  | None => (r, Raise KeyError)
  end.

Definition add_key (role keyid : string) (key_metadata : Key.t)
    : Mutating t () :=
  keyids_add role keyid;;
  modify (λ r, with_keys r (<[keyid := key_metadata]> (keys r))).

(** The loop over [self.roles.values()] that returns as soon as one role
    holds [keyid]. *)
Definition still_used (keyid : string) (r : t) : bool :=
  existsb (λ keyinfo : Role.t, bool_decide (keyid ∈ Role.keyids keyinfo))
    (map_to_list (roles r)).*2.

Definition remove_key (role keyid : string) : Mutating t () :=
  keyids_remove role keyid;;
  r ← self;
  if still_used keyid r then mret ()
  else del_key keyid.
End Root.

(** ** The [meta] and [targets] dicts of the other payloads *)

Definition is_None (v : value) : bool :=
  match v with
  | VNone => true
  | _ => false
  end.

(** [x[k] = v] for a string [k], where [x] is the value held in a field. *)
Definition setitem (x : value) (k : string) (v : value) : result value :=
  match x with
  | VDict m => Ok (VDict (<[k := v]> m))
  | _ => Raise TypeError
  end.

(** [x[k][k'] = v] *)
Definition setitem2 (x : value) (k k' : string) (v : value) : result value :=
  inner ← subscript x k;
  inner ← setitem inner k' v;
  setitem x k inner.

(** ** [class Timestamp(Signed)] *)

Module Timestamp.
Record t : Type := { signed : Signed.t; meta : value }.

Definition _signed_type : string := "timestamp".

Definition init (version spec_version : value) (expires : datetime)
    (meta : value) (unrecognized_fields : dict) : result t :=
  base ← Signed.init version spec_version expires unrecognized_fields;
  Ok {| signed := base; meta := meta |}.

Definition from_dict `{Runtime} : Popping t :=
  common_args ← Signed._common_fields_from_dict _signed_type;
  let '(version, spec_version, expires) := common_args in
  meta ← pop "meta";
  timestamp_dict ← self;
  pure (init version spec_version expires meta timestamp_dict).

Definition to_dict `{Runtime} (s : t) : dict :=
  let timestamp_dict :=
    Signed._common_fields_to_dict _signed_type (signed s) in
  ({[ "meta" := meta s ]} : dict) ∪ timestamp_dict.

(** An assignment into [self.meta]; nothing changes when it raises. *)
Definition assign_meta (f : value → result value) : Mutating t () := λ s,
  match f (meta s) with
  | Ok m => ({| signed := signed s; meta := m |}, Ok ())
  | Raise e => (s, Raise e)
  end.

Definition update (version length hashes : value) : Mutating t () :=
  assign_meta (λ m, setitem m "snapshot.json" (VDict {[ "version" := version ]}));;
  (if is_None length then mret ()
   else assign_meta (λ m, setitem2 m "snapshot.json" "length" length));;
  (if is_None hashes then mret ()
   else assign_meta (λ m, setitem2 m "snapshot.json" "hashes" hashes)).
End Timestamp.

(** ** [class Snapshot(Signed)] *)

Module Snapshot.
Record t : Type := { signed : Signed.t; meta : value }.

Definition _signed_type : string := "snapshot".

Definition init (version spec_version : value) (expires : datetime)
    (meta : value) (unrecognized_fields : dict) : result t :=
  base ← Signed.init version spec_version expires unrecognized_fields;
  Ok {| signed := base; meta := meta |}.

Definition from_dict `{Runtime} : Popping t :=
  common_args ← Signed._common_fields_from_dict _signed_type;
  let '(version, spec_version, expires) := common_args in
  meta ← pop "meta";
  snapshot_dict ← self;
  pure (init version spec_version expires meta snapshot_dict).

Definition to_dict `{Runtime} (s : t) : dict :=
  let snapshot_dict :=
    Signed._common_fields_to_dict _signed_type (signed s) in
  ({[ "meta" := meta s ]} : dict) ∪ snapshot_dict.

Definition assign_meta (f : value → result value) : Mutating t () := λ s,
  match f (meta s) with
  | Ok m => ({| signed := signed s; meta := m |}, Ok ())
  | Raise e => (s, Raise e)
  end.

Definition update (rolename : string) (version length hashes : value)
    : Mutating t () :=
  let metadata_fn := rolename +:+ ".json" in
  assign_meta (λ m, setitem m metadata_fn (VDict {[ "version" := version ]}));;
  (if is_None length then mret ()
   else assign_meta (λ m, setitem2 m metadata_fn "length" length));;
  (if is_None hashes then mret ()
   else assign_meta (λ m, setitem2 m metadata_fn "hashes" hashes)).
End Snapshot.

(** ** [class Targets(Signed)] *)

Module Targets.
(** [delegations] is [None] here whenever the attribute is falsy: the
    source keeps the falsy wire value itself, and reads nothing of it but
    its truth value. *)
Record t : Type := {
  signed : Signed.t;
  targets : value;
  delegations : option Delegations.t
}.

Definition _signed_type : string := "targets".

Definition init (version spec_version : value) (expires : datetime)
    (targets : value) (delegations : option Delegations.t)
    (unrecognized_fields : dict) : result t :=
  base ← Signed.init version spec_version expires unrecognized_fields;
  Ok {| signed := base; targets := targets; delegations := delegations |}.

Definition from_dict `{Runtime} : Popping t :=
  common_args ← Signed._common_fields_from_dict _signed_type;
  let '(version, spec_version, expires) := common_args in
  targets ← pop "targets";
  delegations ← pop_or_None "delegations";
  delegations ← pure (if truthy delegations
                      then Some <$> from_value Delegations.from_dict delegations
                      else Ok None);
  targets_dict ← self;
  pure (init version spec_version expires targets delegations targets_dict).

Definition to_dict `{Runtime} (s : t) : dict :=
  let targets_dict :=
    Signed._common_fields_to_dict _signed_type (signed s) in
  let targets_dict := <["targets" := targets s]> targets_dict in
  match delegations s with
  | Some d => <["delegations" := VDict (Delegations.to_dict d)]> targets_dict
  | None => targets_dict
  end.

Definition update (filename : string) (fileinfo : value) : Mutating t () :=
  λ s,
  match setitem (targets s) filename fileinfo with
  | Ok m => ({| signed := signed s; targets := m;
                delegations := delegations s |}, Ok ())
  | Raise e => (s, Raise e)
  end.
End Targets.

(** ** The four payload classes behind one name *)

Inductive payload : Type :=
  | ATargets (s : Targets.t)
  | ASnapshot (s : Snapshot.t)
  | ATimestamp (s : Timestamp.t)
  | ARoot (s : Root.t).

Inductive payload_class : Type := ClsTargets | ClsSnapshot | ClsTimestamp | ClsRoot.

Definition class_from_dict `{Runtime} (inner_cls : payload_class)
    : Popping payload :=
  match inner_cls with
  | ClsTargets => s ← Targets.from_dict; mret (ATargets s)
  | ClsSnapshot => s ← Snapshot.from_dict; mret (ASnapshot s)
  | ClsTimestamp => s ← Timestamp.from_dict; mret (ATimestamp s)
  | ClsRoot => s ← Root.from_dict; mret (ARoot s)
  end.

(** [self.signed.to_dict()] *)
Definition payload_to_dict `{Runtime} (signed : payload) : dict :=
  match signed with
  | ATargets s => Targets.to_dict s
  | ASnapshot s => Snapshot.to_dict s
  | ATimestamp s => Timestamp.to_dict s
  | ARoot s => Root.to_dict s
  end.

Definition base (signed : payload) : Signed.t :=
  match signed with
  | ATargets s => Targets.signed s
  | ASnapshot s => Snapshot.signed s
  | ATimestamp s => Timestamp.signed s
  | ARoot s => Root.signed s
  end.

(** ** Signing and verifying: the collaborators *)

Definition bytes : Type := list Byte.byte.

(** [signed_serializer.serialize] *)
Definition SignedSerializer : Type := payload → result bytes.

(** [signer.sign] *)
Definition Signer : Type := bytes → result Signature.t.

(** [securesystemslib.keys.verify_signature(key, signature, data)] *)
Definition Verifier : Type := dict → dict → bytes → result bool.

(** ** [class Metadata] *)

Module Metadata.
Record t : Type := { signed : payload; signatures : list Signature.t }.

Definition dispatch (_type : value) : result payload_class :=
  if is_str "targets" _type then Ok ClsTargets
  else if is_str "snapshot" _type then Ok ClsSnapshot
  else if is_str "timestamp" _type then Ok ClsTimestamp
  else if is_str "root" _type then Ok ClsRoot
  else Raise ValueError.

Definition from_dict `{Runtime} : Popping t :=
  signed ← getitem "signed";
  _type ← pure (subscript signed "_type");
  inner_cls ← pure (dispatch _type);
  signatures ← pop "signatures";
  signatures ← pure (items ← iterate signatures;
                     for_each Signature.from_dict items);
  signed ← pop "signed";
  signed ← pure (from_value (class_from_dict inner_cls) signed);
  mret {| signed := signed; signatures := signatures |}.

Definition to_dict `{Runtime} (md : t) : dict :=
  let signatures := (λ sig, VDict (Signature.to_dict sig)) <$> signatures md in
  {[ "signatures" := VList signatures;
     "signed" := VDict (payload_to_dict (signed md)) ]}.

Definition sign (signer : Signer) (append : bool)
    (signed_serializer : SignedSerializer) : Mutating t Signature.t :=
  md ← self;
  signature ← pure (data ← signed_serializer (signed md); signer data);
  (if append then
     modify (λ md, {| signed := signed md;
                      signatures := signatures md ++ [signature] |})
   else
     modify (λ md, {| signed := signed md; signatures := [signature] |}));;
  mret signature.

Definition verify (verify_signature : Verifier) (key : dict)
    (signed_serializer : SignedSerializer) (md : t) : result bool :=
  keyid ← subscript (VDict key) "keyid";
  let signatures_for_keyid :=
    filter (λ sig, is_str (Signature.keyid sig) keyid) (signatures md) in
  match signatures_for_keyid with
  | [] => Raise (Error NoSignature)
  | [sig] =>
      data ← signed_serializer (signed md);
      verify_signature key (Signature.to_dict sig) data
  | _ => Raise (Error (ManySignatures (length signatures_for_keyid)))
  end.
End Metadata.

(** ** A runtime to run the model on

    Stand-ins to evaluate the sample records with: [isoformat] as CPython
    writes a naive datetime; a parser that reads the strings of the shape
    YYYY-MM-DDTHH:MM:SSZ in ASCII digits that name a calendar date and a
    time of day, and raises [FormatError] on every other value, as the
    parser of [tuf.formats] does on strings of ASCII characters (that one
    also reads decimal digits outside ASCII, which the strings here, made of
    bytes, do not have); and one iteration order for sets. *)

Module Reference.
Definition digit (n : Z) : Ascii.ascii := Ascii.ascii_of_nat (48 + Z.to_nat (n `mod` 10)).

Fixpoint zero_padded (width : nat) (n : Z) : string :=
  match width with
  | O => ""
  | S w => zero_padded w (n `div` 10) +:+ String (digit n) ""
  end.

Definition isoformat (t : datetime) : string :=
  zero_padded 4 (year t) +:+ "-" +:+ zero_padded 2 (month t) +:+ "-" +:+
  zero_padded 2 (day t) +:+ "T" +:+ zero_padded 2 (hour t) +:+ ":" +:+
  zero_padded 2 (minute t) +:+ ":" +:+ zero_padded 2 (second t) +:+
  (if microsecond t =? 0 then "" else "." +:+ zero_padded 6 (microsecond t)).

Definition number (s : string) : Z :=
  foldl (λ acc c, 10 * acc + (Z.of_nat (Ascii.nat_of_ascii c) - 48)) 0
    (String.list_ascii_of_string s).

Definition expiry_string_to_datetime (expires : value) : result datetime :=
  match expires with
  | VStr s =>
      let field from len := number (String.substring from len s) in
      let t := {| year := field 0%nat 4%nat; month := field 5%nat 2%nat;
                  day := field 8%nat 2%nat; hour := field 11%nat 2%nat;
                  minute := field 14%nat 2%nat; second := field 17%nat 2%nat;
                  microsecond := 0 |} in
      if bool_decide (isoformat t +:+ "Z" = s) then
        if well_formed t then Ok t else Raise FormatError
      else Raise FormatError
  | _ => Raise FormatError
  end.

#[global] Instance runtime : Runtime :=
  Build_Runtime elements expiry_string_to_datetime isoformat.
End Reference.

(** ** Integrity records *)

Module IntegrityRecord.
(** The hash collaborator: the hex digest of the content under an algorithm
    label, or the exception it raises for a label it does not support or
    cannot read. *)
Definition Hasher : Type := value → bytes → result string.

(** Modelled from the spec: the classes [MetaFile] and [TargetFile] are not
    in the module at hand (only the tests name them).  As the specification
    words it, a record has an optional length and an optional map from
    hash-algorithm labels to digests.  A label is any value, since a
    malformed one is among the cases. *)
Record t : Type := {
  length : option Z;
  hashes : option (list (value * string))
}.

Definition verify_length (r : t) (content : bytes) : result () :=
  match length r with
  | Some expected =>
      if bool_decide (Z.of_nat (List.length content) = expected) then Ok ()
      else Raise LengthOrHashMismatchError
  | None => Ok ()
  end.

Definition verify_hash (digest_of : Hasher) (content : bytes)
    (entry : value * string) : result () :=
  match digest_of entry.1 content with
  | Ok observed =>
      if bool_decide (observed = entry.2) then Ok ()
      else Raise LengthOrHashMismatchError
  | Raise _ => Raise LengthOrHashMismatchError
  end.

Definition verify_hashes (digest_of : Hasher) (r : t) (content : bytes)
    : result () :=
  match hashes r with
  | Some expected => for_each (verify_hash digest_of content) expected ≫= λ _, Ok ()
  | None => Ok ()
  end.

(** Modelled from the spec: the method [verify_length_and_hashes] of
    [MetaFile] and [TargetFile] is not in the module at hand.  As the
    specification words it: if a length is recorded the byte count of the
    content must equal it; if hashes are recorded then for every algorithm
    the digest of the content must equal the recorded one, and an unsupported
    or malformed label counts as a mismatch; every failure is the one
    length-or-hash mismatch error; with neither recorded the check
    succeeds. *)
Definition verify_length_and_hashes (digest_of : Hasher) (r : t)
    (content : bytes) : result () :=
  verify_length r content;;
  verify_hashes digest_of r content.
End IntegrityRecord.

(** * The claims as predicates *)

(** A failed call leaves the object as it was. *)
Definition all_or_nothing {S A} (call : Mutating S A) : Prop :=
  ∀ s e, (call s).2 = Raise e → (call s).1 = s.

(** The signatures of [md] made under the keyid of [key]. *)
Definition signatures_for (keyid : string) (md : Metadata.t)
    : list Signature.t :=
  filter (λ sig, is_str (Signature.keyid sig) (VStr keyid))
    (Metadata.signatures md).


(** The reading of C5 in the specification, for a role [keyinfo] of the
    roles map.  The call raises [KeyError] when the keyid is not in the
    role's key-id set.  Otherwise it succeeds: the keyid leaves that role's
    set, and the key is deleted from the key store exactly when no role
    refers to the keyid any more; it stays when some role still does. *)
Definition remove_key_purges (r : Root.t) (role keyid : string)
    (keyinfo : Role.t) : Prop :=
  let r' := (Root.remove_key role keyid r).1 in
  let outcome := (Root.remove_key role keyid r).2 in
  (keyid ∉ Role.keyids keyinfo → outcome = Raise KeyError) ∧
  (keyid ∈ Role.keyids keyinfo →
     outcome = Ok () ∧
     Root.roles r' =
       <[role := Root.with_keyids keyinfo (Role.keyids keyinfo ∖ {[keyid]})]>
         (Root.roles r) ∧
     ((∃ name other, Root.roles r' !! name = Some other
                     ∧ keyid ∈ Role.keyids other) →
        Root.keys r' = Root.keys r) ∧
     ((∀ name other, Root.roles r' !! name = Some other
                     → keyid ∉ Role.keyids other) →
        Root.keys r' = delete keyid (Root.keys r))).

(** The keyids of a role record are listed in the order in which Python
    walks the set made of them.  Every list of at most one keyid is. *)
Definition in_set_order `{Runtime} (d : dict) : Prop :=
  ∀ ids, d !! "keyids" = Some (str_list ids) →
         set_order (list_to_set ids) = ids.

(** The entry under [k], if there is one, is not empty ([None], an empty
    list, an empty dict and the like). *)
Definition filled_if_present (k : string) (d : dict) : Prop :=
  ∀ v, d !! k = Some v → truthy v = true.

Definition role_record_plain `{Runtime} (v : value) : Prop :=
  ∀ d, v = VDict d → in_set_order d.

Definition delegated_role_record_plain `{Runtime} (v : value) : Prop :=
  ∀ d, v = VDict d →
       in_set_order d ∧ filled_if_present "paths" d ∧
       filled_if_present "path_hash_prefixes" d.

Definition delegations_record_plain `{Runtime} (v : value) : Prop :=
  ∀ d, v = VDict d →
       ∃ roles, d !! "roles" = Some (VList roles) ∧
                ∀ role, role ∈ roles → delegated_role_record_plain role.

Definition root_record_plain `{Runtime} (d : dict) : Prop :=
  ∀ roles name role, d !! "roles" = Some (VDict roles) →
                     roles !! name = Some role → role_record_plain role.

Definition targets_record_plain `{Runtime} (d : dict) : Prop :=
  filled_if_present "delegations" d ∧
  ∀ delegations, d !! "delegations" = Some delegations →
                 delegations_record_plain delegations.

Definition record_plain `{Runtime} (cls : payload_class) (d : dict) : Prop :=
  match cls with
  | ClsRoot => root_record_plain d
  | ClsTargets => targets_record_plain d
  | ClsTimestamp | ClsSnapshot => True
  end.

(** The "expires" string of the record is the one that [isoformat() + "Z"]
    writes for the time it is parsed to. *)
Definition expires_as_written `{Runtime} (d : dict) : Prop :=
  ∀ v t, d !! "expires" = Some v → expiry_string_to_datetime v = Ok t →
         v = VStr (isoformat t +:+ "Z").

(** The reading of C2 in the specification: whatever record decodes, encoding
    the decoded payload gives the record back. *)
Definition to_dict_undoes_from_dict `{Runtime} : Prop :=
  ∀ (cls : payload_class) (d d' : dict) (s : payload),
    class_from_dict cls d = (d', Ok s) → payload_to_dict s = d.

(** [d] with the entries under [keys] popped. *)
Definition without (keys : list string) (d : dict) : dict :=
  foldr delete d keys.

(** * Stand-ins and sample records to run the model on *)

(** A stand-in for the cryptography, to run the model on: the signature of
    any data is the private key's text, the public key carries the same text
    and the scheme "toy", and the primitive fails the way
    [securesystemslib.keys.verify_signature] does. *)
Module Toy.
Definition serializer : SignedSerializer := λ signed,
  Ok [Byte.x7b; Byte.x7d].

Definition signer (keyid secret : string) : Signer := λ data,
  Ok {| Signature.keyid := keyid; Signature.signature := secret |}.

Definition public_key (keyid scheme secret : string) : dict :=
  {[ "keyid" := VStr keyid; "keytype" := VStr "toy";
     "scheme" := VStr scheme;
     "keyval" := VDict {[ "public" := VStr secret ]} ]}.

Definition verify_signature : Verifier := λ key signature data,
  match key !! "scheme", key !! "keyval", signature !! "sig" with
  | Some scheme, Some (VDict keyval), Some (VStr sig) =>
      if is_str "toy" scheme then
        match keyval !! "public" with
        | Some (VStr public) =>
            if bool_decide (String.length sig = String.length public)
            then Ok (bool_decide (sig = public))
            else Raise CryptoError
        | _ => Raise FormatError
        end
      else Raise UnsupportedAlgorithmError
  | _, _, _ => Raise FormatError
  end.
End Toy.

(** A stand-in for the hash library: one algorithm, whose digest of a content
    is its byte count in two decimal digits. *)
Definition toy_digest : IntegrityRecord.Hasher := λ alg content,
  match alg with
  | VStr "sha256" => Ok (Reference.zero_padded 2 (Z.of_nat (length content)))
  | VStr _ => Raise UnsupportedAlgorithmError
  | _ => Raise FormatError
  end.

Definition at_midnight (y m d : Z) : datetime :=
  {| year := y; month := m; day := d;
     hour := 0; minute := 0; second := 0; microsecond := 0 |}.

Definition expiring (expires : datetime) : Signed.t :=
  {| Signed.version := 1; Signed.spec_version := VStr "1.0.0";
     Signed.expires := expires; Signed.unrecognized_fields := ∅ |}.

Definition a_key : Key.t :=
  {| Key.keytype := VStr "ed25519"; Key.scheme := VStr "ed25519";
     Key.keyval := {[ "public" := VStr "edcd0a32" ]};
     Key.unrecognized_fields := ∅ |}.

Definition a_role (keyids : list string) : Role.t :=
  {| Role.keyids := list_to_set keyids; Role.threshold := VInt 1;
     Role.unrecognized_fields := ∅ |}.

(** A root whose role "root" is signed for by k1 and k2 and whose role
    "targets" by k2 alone. *)
Definition a_root : Root.t :=
  {| Root.signed := expiring (at_midnight 2030 1 1);
     Root.consistent_snapshot := VBool true;
     Root.keys := {[ "k1" := a_key; "k2" := a_key ]};
     Root.roles := {[ "root" := a_role ["k1"; "k2"];
                      "targets" := a_role ["k2"] ]} |}.

(** A root record whose role "root" names k1 while the key store is empty;
    [Root.from_dict] does not compare the two. *)
Definition dangling_root_record : dict :=
  {[ "_type" := VStr "root"; "version" := VInt 1;
     "spec_version" := VStr "1.0.0";
     "expires" := VStr "2030-01-01T00:00:00Z";
     "consistent_snapshot" := VBool true;
     "keys" := VDict ∅;
     "roles" := VDict {[ "root" := VDict {[ "keyids" := str_list ["k1"];
                                            "threshold" := VInt 1 ]} ]} ]}.

Definition dangling_root : Root.t :=
  {| Root.signed := expiring (at_midnight 2030 1 1);
     Root.consistent_snapshot := VBool true;
     Root.keys := ∅;
     Root.roles := {[ "root" := a_role ["k1"] ]} |}.

Definition a_snapshot_record : dict :=
  {[ "_type" := VStr "snapshot"; "version" := VInt 1;
     "spec_version" := VStr "1.0.0";
     "expires" := VStr "2030-01-01T00:00:00Z";
     "meta" := VDict {[ "targets.json" := VDict {[ "version" := VInt 1 ]} ]} ]}.

Definition signature_record (keyid sig : string) : value :=
  VDict {[ "keyid" := VStr keyid; "sig" := VStr sig ]}.

(** The record of [test_metadata_base]: a second signature is appended under
    the keyid of the first. *)
Definition twice_signed_record : dict :=
  {[ "signatures" := VList [signature_record "k1" "aa";
                            signature_record "k1" "foo"];
     "signed" := VDict a_snapshot_record ]}.

(** A document signed by k1 with the toy scheme. *)
Definition signed_by_k1 : Metadata.t :=
  {| Metadata.signed := ARoot a_root;
     Metadata.signatures :=
       [{| Signature.keyid := "k1"; Signature.signature := "s1" |}] |}.


Definition a_key_record : value :=
  VDict {[ "keytype" := VStr "ed25519"; "scheme" := VStr "ed25519";
           "keyval" := VDict {[ "public" := VStr "edcd0a32" ]};
           "d" := VStr "c" ]}.

(** A targets record whose one delegated role has an empty list of paths. *)
Definition role_with_empty_paths : value :=
  VDict {[ "name" := VStr "role1"; "keyids" := str_list ["k1"];
           "threshold" := VInt 1; "terminating" := VBool false;
           "paths" := VList [] ]}.

Definition targets_record (role : value) : dict :=
  {[ "_type" := VStr "targets"; "version" := VInt 1;
     "spec_version" := VStr "1.0.0";
     "expires" := VStr "2030-01-01T00:00:00Z";
     "targets" := VDict ∅;
     "delegations" := VDict {[ "keys" := VDict {[ "k1" := a_key_record ]};
                               "roles" := VList [role];
                               "foo" := VStr "bar" ]};
     "f" := VStr "b" ]}.

(** The "paths" entry of the first delegated role of a targets record. *)
Definition paths_of_first_role (d : dict) : option value :=
  match d !! "delegations" with
  | Some (VDict delegations) =>
      match delegations !! "roles" with
      | Some (VList (VDict role :: _)) => role !! "paths"
      | _ => None
      end
  | _ => None
  end.

(** A root record with a field the model does not know at each level, as
    [test_support_for_unrecognized_fields] builds it. *)
Definition a_role_record : value :=
  VDict {[ "keyids" := str_list ["k1"]; "threshold" := VInt 1;
           "e" := VStr "g" ]}.

Definition a_root_record : dict :=
  {[ "_type" := VStr "root"; "version" := VInt 1;
     "spec_version" := VStr "1.0.0";
     "expires" := VStr "2030-01-01T00:00:00Z";
     "consistent_snapshot" := VBool false;
     "keys" := VDict {[ "k1" := a_key_record ]};
     "roles" := VDict {[ "root" := a_role_record ]};
     "f" := VStr "b" ]}.

Definition a_key_dict : dict :=
  {[ "keytype" := VStr "ed25519"; "scheme" := VStr "ed25519";
     "keyval" := VDict {[ "public" := VStr "edcd0a32" ]}; "d" := VStr "c" ]}.

Definition a_metadata_record : dict :=
  {[ "signatures" := VList [signature_record "k1" "aa"];
     "signed" := VDict a_root_record ]}.

Definition a_file : bytes := replicate 28 Byte.x61.

Definition a_record (length : option Z) (hashes : option (list (value * string)))
    : IntegrityRecord.t :=
  {| IntegrityRecord.length := length; IntegrityRecord.hashes := hashes |}.

(** * Further predicates and sample records *)

(** The [_signed_type] of a payload class, and whether an object is an
    instance of the class. *)
Definition signed_type_of (cls : payload_class) : string :=
  match cls with
  | ClsTargets => Targets._signed_type
  | ClsSnapshot => Snapshot._signed_type
  | ClsTimestamp => Timestamp._signed_type
  | ClsRoot => Root._signed_type
  end.


Definition class_of (signed : payload) : payload_class :=
  match signed with
  | ATargets _ => ClsTargets
  | ASnapshot _ => ClsSnapshot
  | ATimestamp _ => ClsTimestamp
  | ARoot _ => ClsRoot
  end.

(** Every keyid a role of the root names has its key in the key store. *)
Definition keys_present (r : Root.t) : Prop :=
  ∀ name keyinfo keyid,
    Root.roles r !! name = Some keyinfo → keyid ∈ Role.keyids keyinfo →
    is_Some (Root.keys r !! keyid).

(** What [update] stores for one metadata file: the version, and the length
    and the hashes where they are given. *)
Definition metafile_entry (version length hashes : value) : dict :=
  let entry : dict := {[ "version" := version ]} in
  let entry := if is_None length then entry else <["length" := length]> entry in
  if is_None hashes then entry else <["hashes" := hashes]> entry.

(** A signature record with the two entries the signature class reads and
    no other. *)
Definition signature_record_plain (v : value) : Prop :=
  ∀ d, v = VDict d → dom d ⊆ {[ "keyid"; "sig" ]}.

(** ** Objects that decode from their own encoding *)

(** [list(s)] walks every member of the set once. *)
Definition set_order_exact `{Runtime} : Prop :=
  ∀ X : gset string, NoDup (set_order X) ∧ list_to_set (set_order X) = X.

(** The unrecognized fields hold none of the names the class reads. *)
Definition apart_from (keys : list string) (unrecognized_fields : dict) : Prop :=
  Forall (λ k, unrecognized_fields !! k = None) keys.

(** A key as [Key.__init__] accepts it. *)
Definition key_sound (k : Key.t) : Prop :=
  apart_from ["keytype"; "scheme"; "keyval"] (Key.unrecognized_fields k) ∧
  truthy (default VNone (Key.keyval k !! "public")) = true.

Definition role_sound (r : Role.t) : Prop :=
  apart_from ["keyids"; "threshold"] (Role.unrecognized_fields r).

(** [to_dict] leaves a falsy scoping out, so that decoding finds [None]. *)
Definition absent_when_falsy (v : value) : Prop :=
  truthy v = false → v = VNone.

(** A delegated role as [DelegatedRole.__init__] accepts it: not both
    scopings at once. *)
Definition delegated_role_sound (r : DelegatedRole.t) : Prop :=
  apart_from ["name"; "keyids"; "threshold"; "terminating"; "paths";
              "path_hash_prefixes"]
    (Role.unrecognized_fields (DelegatedRole.role r)) ∧
  truthy (DelegatedRole.paths r) && truthy (DelegatedRole.path_hash_prefixes r)
    = false ∧
  absent_when_falsy (DelegatedRole.paths r) ∧
  absent_when_falsy (DelegatedRole.path_hash_prefixes r).

Definition delegations_sound (d : Delegations.t) : Prop :=
  apart_from ["keys"; "roles"] (Delegations.unrecognized_fields d) ∧
  map_Forall (λ _, key_sound) (Delegations.keys d) ∧
  Forall delegated_role_sound (Delegations.roles d).

(** The common part as [Signed.__init__] accepts it, with an expiry the
    parser reads back from what [isoformat() + "Z"] writes; [own] are the
    names the payload class reads besides the common ones. *)
Definition signed_sound `{Runtime} (own : list string) (s : Signed.t) : Prop :=
  apart_from (["_type"; "version"; "spec_version"; "expires"] ++ own)
    (Signed.unrecognized_fields s) ∧
  0 < Signed.version s ∧
  expiry_string_to_datetime (VStr (isoformat (Signed.expires s) +:+ "Z"))
    = Ok (Signed.expires s).

Definition payload_sound `{Runtime} (signed : payload) : Prop :=
  match signed with
  | ATargets s =>
      signed_sound ["targets"; "delegations"] (Targets.signed s) ∧
      from_option delegations_sound True (Targets.delegations s)
  | ASnapshot s => signed_sound ["meta"] (Snapshot.signed s)
  | ATimestamp s => signed_sound ["meta"] (Timestamp.signed s)
  | ARoot s =>
      signed_sound ["consistent_snapshot"; "keys"; "roles"] (Root.signed s) ∧
      map_Forall (λ _, key_sound) (Root.keys s) ∧
      map_Forall (λ _, role_sound) (Root.roles s)
  end.

(** ** More sample records *)

Definition bad_metadata_record : dict :=
  {[ "signed" := VDict {[ "_type" := VStr "bad-metadata" ]} ]}.

(** A snapshot record with version 0, under one signature. *)
Definition version_0_record : dict :=
  {[ "signatures" := VList [signature_record "k1" "aa"];
     "signed" := VDict (<["version" := VInt 0]> a_snapshot_record) ]}.

Definition repeated_keyids_record : dict :=
  {[ "keyids" := str_list ["k1"; "k1"]; "threshold" := VInt 1 ]}.

Definition a_delegated_role_record : dict :=
  {[ "name" := VStr "role1"; "keyids" := str_list ["k1"];
     "threshold" := VInt 1; "terminating" := VBool false;
     "paths" := VList [VStr "fn1"; VStr "fn2"] ]}.

Definition a_timestamp : Timestamp.t :=
  {| Timestamp.signed := expiring (at_midnight 2030 1 1);
     Timestamp.meta :=
       VDict {[ "snapshot.json" :=
                  VDict {[ "version" := VInt 1; "length" := VInt 515 ]} ]} |}.

Definition a_snapshot : Snapshot.t :=
  {| Snapshot.signed := expiring (at_midnight 2030 1 1);
     Snapshot.meta :=
       VDict {[ "targets.json" := VDict {[ "version" := VInt 1 ]} ]} |}.

Definition a_targets : Targets.t :=
  {| Targets.signed := expiring (at_midnight 2030 1 1);
     Targets.targets := VDict {[ "file1.txt" := VDict {[ "length" := VInt 31 ]} ]};
     Targets.delegations := None |}.

(** A stand-in for [expires + delta]: the same day and time of the next
    year. *)
Definition plus_one_year (t : datetime) : result datetime :=
  if year t <? 9999 then
    Ok {| year := year t + 1; month := month t; day := day t;
          hour := hour t; minute := minute t; second := second t;
          microsecond := microsecond t |}
  else Raise OverflowError.

(** * Properties *)

Example expiry_2030 :
  Reference.expiry_string_to_datetime (VStr "2030-01-01T00:00:00Z")
  = Ok {| year := 2030; month := 1; day := 1; hour := 0; minute := 0;
          second := 0; microsecond := 0 |}.
Proof. vm_compute. reflexivity. Qed.

(** ** Expiry *)

Section Calendar.
Implicit Types a b t : datetime.

Lemma days_before_year_succ y :
  days_before_year (y + 1) = days_before_year y + (if is_leap y then 366 else 365).
Proof.
  unfold days_before_year, is_leap.
  replace (y + 1 - 1) with (y - 1 + 1) by lia.
  destruct (Z.eqb_spec (y `mod` 4) 0), (Z.eqb_spec (y `mod` 100) 0),
    (Z.eqb_spec (y `mod` 400) 0); simpl; Z.div_mod_to_equations; lia.
Qed.

Lemma days_before_year_mono y y' :
  y ≤ y' → days_before_year y ≤ days_before_year y'.
Proof.
  intros Hle. replace y' with (y + Z.of_nat (Z.to_nat (y' - y))) by lia.
  induction (Z.to_nat (y' - y)) as [|n IH]; [by rewrite Z.add_0_r|].
  rewrite Nat2Z.inj_succ, <- Z.add_1_r, Z.add_assoc, days_before_year_succ.
  destruct (is_leap _); lia.
Qed.

Lemma month_cases m :
  1 ≤ m ≤ 12 →
  m = 1 ∨ m = 2 ∨ m = 3 ∨ m = 4 ∨ m = 5 ∨ m = 6 ∨
  m = 7 ∨ m = 8 ∨ m = 9 ∨ m = 10 ∨ m = 11 ∨ m = 12.
Proof. lia. Qed.

(** Within one year the day of the year grows with (month, day). *)
Lemma day_of_year_lt y m d m' d' :
  1 ≤ m ≤ 12 → 1 ≤ m' ≤ 12 →
  1 ≤ d ≤ days_in_month y m → 1 ≤ d' ≤ days_in_month y m' →
  m < m' ∨ (m = m' ∧ d < d') →
  days_before_month y m + d < days_before_month y m' + d'.
Proof.
  intros Hm Hm' Hd Hd' Hlt.
  apply month_cases in Hm, Hm'. unfold days_before_month, days_in_month in *.
  destruct (is_leap y);
    destruct Hm as [->|[->|[->|[->|[->|[->|[->|[->|[->|[->|[->| ->]]]]]]]]]]];
    destruct Hm' as [->|[->|[->|[->|[->|[->|[->|[->|[->|[->|[->| ->]]]]]]]]]]];
    simpl in *; lia.
Qed.

Lemma day_of_year_bounds y m d :
  1 ≤ m ≤ 12 → 1 ≤ d ≤ days_in_month y m →
  1 ≤ days_before_month y m + d ≤ if is_leap y then 366 else 365.
Proof.
  intros Hm Hd.
  apply month_cases in Hm. unfold days_before_month, days_in_month in *.
  destruct (is_leap y);
    destruct Hm as [->|[->|[->|[->|[->|[->|[->|[->|[->|[->|[->| ->]]]]]]]]]]];
    simpl in *; lia.
Qed.

Lemma well_formed_spec t :
  well_formed t = true →
  1 ≤ year t ≤ 9999 ∧ 1 ≤ month t ≤ 12 ∧
  1 ≤ day t ≤ days_in_month (year t) (month t) ∧
  0 ≤ hour t < 24 ∧ 0 ≤ minute t < 60 ∧ 0 ≤ second t < 60 ∧
  0 ≤ microsecond t < 1000000.
Proof.
  unfold well_formed. rewrite !andb_true_iff, !Z.leb_le, !Z.ltb_lt. lia.
Qed.

(** The day number grows with (year, month, day). *)
Lemma toordinal_lt a b :
  well_formed a = true → well_formed b = true →
  year a < year b ∨
    (year a = year b ∧
      (month a < month b ∨ (month a = month b ∧ day a < day b))) →
  toordinal a < toordinal b.
Proof.
  intros Ha%well_formed_spec Hb%well_formed_spec Hlt. unfold toordinal.
  destruct Hlt as [Hy|[Hy Hmd]].
  - pose proof (day_of_year_bounds (year a) (month a) (day a)) as Hda.
    pose proof (day_of_year_bounds (year b) (month b) (day b)) as Hdb.
    pose proof (days_before_year_succ (year a)) as Hsucc.
    pose proof (days_before_year_mono (year a + 1) (year b)) as Hmono.
    destruct (is_leap (year a)), (is_leap (year b)); lia.
  - rewrite Hy in *.
    pose proof (day_of_year_lt (year b) (month a) (day a) (month b) (day b)).
    lia.
Qed.

(** Comparing field by field is comparing the points of time. *)
Lemma datetime_cmp_instant a b :
  well_formed a = true → well_formed b = true →
  datetime_cmp a b = (instant a ?= instant b).
Proof.
  intros Ha Hb.
  pose proof (toordinal_lt a b Ha Hb) as Hab.
  pose proof (toordinal_lt b a Hb Ha) as Hba.
  assert (year a = year b → month a = month b → day a = day b →
          toordinal a = toordinal b) as Heq
    by (unfold toordinal; intros -> -> ->; done).
  apply well_formed_spec in Ha, Hb.
  unfold datetime_cmp, fields, instant. simpl.
  repeat match goal with
         | |- context [?x ?= ?y] =>
             lazymatch x with
             | year _ => idtac | month _ => idtac | day _ => idtac
             | hour _ => idtac | minute _ => idtac | second _ => idtac
             | microsecond _ => idtac
             end;
             destruct (Z.compare_spec x y)
         end;
    symmetry;
    first [ apply Z.compare_eq_iff | apply Z.compare_lt_iff
          | apply Z.compare_gt_iff ];
    lia.
Qed.
End Calendar.

(** The checks of [test_metadata_base]: expired at the expiry time itself and
    a day later, not yet a day earlier. *)
Example is_expired_2030 :
  let s := expiring (at_midnight 2030 1 1) in
  let utcnow := at_midnight 2026 1 1 in
  Signed.is_expired utcnow s (Some (at_midnight 2030 1 1)) = true ∧
  Signed.is_expired utcnow s (Some (at_midnight 2030 1 2)) = true ∧
  Signed.is_expired utcnow s (Some (at_midnight 2029 12 31)) = false ∧
  Signed.is_expired utcnow s None = false.
Proof. repeat split; reflexivity. Qed.

(** C7. [is_expired(t)] is true exactly when the reference time [t] is not
    before [expires] (the point of time [t] names is at or after the one
    [expires] names); at [t == expires] it is true; without a reference time
    the current UTC time is compared. *)
Theorem is_expired_iff_not_before_expires (utcnow : datetime) (s : Signed.t)
    (t : datetime) :
  well_formed t = true → well_formed (Signed.expires s) = true →
  (Signed.is_expired utcnow s (Some t) = true
     ↔ instant (Signed.expires s) ≤ instant t) ∧
  Signed.is_expired utcnow s (Some (Signed.expires s)) = true ∧
  Signed.is_expired utcnow s None = Signed.is_expired utcnow s (Some utcnow).
Proof.
  intros Ht Hs. unfold Signed.is_expired, datetime_ge. simpl.
  rewrite !datetime_cmp_instant by done. rewrite Z.compare_refl.
  split; [|done].
  destruct (Z.compare_spec (instant t) (instant (Signed.expires s)));
    split; (done || lia).
Qed.

Lemma is_expired_iff_not_before_expires_witness :
  let utcnow := at_midnight 2026 1 1 in
  let s := expiring (at_midnight 2030 1 1) in
  let t := at_midnight 2030 1 1 in
  (Signed.is_expired utcnow s (Some t) = true
     ↔ instant (Signed.expires s) ≤ instant t) ∧
  Signed.is_expired utcnow s (Some (Signed.expires s)) = true ∧
  Signed.is_expired utcnow s None = Signed.is_expired utcnow s (Some utcnow).
Proof.
  apply (is_expired_iff_not_before_expires (at_midnight 2026 1 1)
           (expiring (at_midnight 2030 1 1)) (at_midnight 2030 1 1));
    reflexivity.
Defined.

(** ** Keys of the root roles *)

Section RootKeys.
Implicit Types (r : Root.t) (role keyid name : string) (keyinfo : Role.t).

Lemma still_used_spec keyid r :
  Root.still_used keyid r = true ↔
  ∃ name keyinfo,
    Root.roles r !! name = Some keyinfo ∧ keyid ∈ Role.keyids keyinfo.
Proof.
  unfold Root.still_used. rewrite existsb_exists. split.
  - intros (keyinfo & Hin & Hk). apply list_elem_of_In in Hin.
    apply list_elem_of_fmap in Hin as ([name keyinfo'] & -> & Hin).
    apply elem_of_map_to_list in Hin. apply bool_decide_eq_true in Hk.
    by exists name, keyinfo'.
  - intros (name & keyinfo & Hrole & Hk). exists keyinfo. split.
    + apply list_elem_of_In, list_elem_of_fmap. exists (name, keyinfo).
      split; [done|]. by apply elem_of_map_to_list.
    + by apply bool_decide_eq_true.
Qed.

Lemma still_used_false keyid r :
  Root.still_used keyid r = false ↔
  ∀ name keyinfo,
    Root.roles r !! name = Some keyinfo → keyid ∉ Role.keyids keyinfo.
Proof.
  rewrite <- not_true_iff_false, still_used_spec. split.
  - intros Hnone name keyinfo Hrole Hk. apply Hnone. by exists name, keyinfo.
  - intros Hnone (name & keyinfo & Hrole & Hk). by apply (Hnone name keyinfo).
Qed.

(** What [remove_key] does once the role is found, case by case. *)
Lemma remove_key_unfold role keyid r keyinfo :
  Root.roles r !! role = Some keyinfo →
  Root.remove_key role keyid r =
    if bool_decide (keyid ∈ Role.keyids keyinfo) then
      let r1 := Root.with_roles r
        (<[role := Root.with_keyids keyinfo (Role.keyids keyinfo ∖ {[keyid]})]>
           (Root.roles r)) in
      if Root.still_used keyid r1 then (r1, Ok ())
      else match Root.keys r !! keyid with
           | Some _ => (Root.with_keys r1 (delete keyid (Root.keys r)), Ok ())
           | None => (r1, Raise KeyError)
           end
    else (r, Raise KeyError).
Proof.
  intros Hrole.
  unfold Root.remove_key, Root.keyids_remove, Root.role_of, Root.del_key,
    mbind, mutating_bind, self, modify, pure, mret, mutating_ret.
  rewrite Hrole. case_bool_decide; [|done]. simpl.
  destruct (Root.still_used _ _); [done|]. simpl.
  by destruct (Root.keys r !! keyid).
Qed.
End RootKeys.

(** Where the key store holds the keyid, or the role does not, [remove_key]
    does what C5 says. *)
Lemma remove_key_purges_when_key_stored (r : Root.t) (role keyid : string)
    (keyinfo : Role.t) :
  Root.roles r !! role = Some keyinfo →
  (keyid ∈ Role.keyids keyinfo → is_Some (Root.keys r !! keyid)) →
  remove_key_purges r role keyid keyinfo.
Proof.
  intros Hrole Hstored. unfold remove_key_purges.
  rewrite (remove_key_unfold _ _ _ _ Hrole).
  case_bool_decide as Hin; (split; [by intros ?|]); intros Hin'; [|done].
  destruct (Hstored Hin) as [key Hkey]. cbv zeta. rewrite Hkey.
  set (r1 := Root.with_roles _ _).
  destruct (Root.still_used keyid r1) eqn:Hused; simpl.
  - split; [done|]. split; [done|]. split; [done|]. intros Hnone.
    apply still_used_spec in Hused as (name & other & Hother & Hk).
    by destruct (Hnone name other Hother).
  - split; [done|]. split; [done|]. split; [|done].
    intros (name & other & Hother & Hk).
    by destruct (proj1 (still_used_false _ _) Hused name other Hother).
Qed.

(** C5. For a keyid of the role, [remove_key] is to take the keyid from the
    role and to delete the key from the store if no role names the keyid any
    more; its one error is a keyid that the role does not have.  On a root
    whose role "root" names k1 while the key store has no k1, the call for
    k1 raises [KeyError] all the same: [del self.keys[keyid]] takes the key
    to be there. *)
Theorem remove_key_raises_for_a_keyid_of_the_role :
  Root.roles dangling_root !! "root" = Some (a_role ["k1"]) ∧
  "k1" ∈ Role.keyids (a_role ["k1"]) ∧
  (Root.remove_key "root" "k1" dangling_root).2 = Raise KeyError ∧
  ¬ remove_key_purges dangling_root "root" "k1" (a_role ["k1"]).
Proof.
  assert ("k1" ∈ Role.keyids (a_role ["k1"])) as Hin.
  { apply elem_of_list_to_set, list_elem_of_here. }
  assert ((Root.remove_key "root" "k1" dangling_root).2 = Raise KeyError)
    as Hrun by (vm_compute; reflexivity).
  split; [reflexivity|]. split; [done|]. split; [done|].
  intros [_ Hpurges]. destruct (Hpurges Hin) as [Hok _].
  rewrite Hrun in Hok. discriminate.
Qed.

(** The last reference to k1 goes and takes the key along; k2 is still
    named by "targets" and stays; a keyid the role does not hold is a
    [KeyError]. *)
Example remove_key_runs :
  Root.remove_key "root" "k1" a_root =
    (Root.with_keys
       (Root.with_roles a_root
          {[ "root" := a_role ["k2"]; "targets" := a_role ["k2"] ]})
       {[ "k2" := a_key ]}, Ok ()) ∧
  Root.remove_key "root" "k2" a_root =
    (Root.with_roles a_root
       {[ "root" := a_role ["k1"]; "targets" := a_role ["k2"] ]}, Ok ()) ∧
  Root.remove_key "root" "nosuchkey" a_root = (a_root, Raise KeyError).
Proof. repeat split; vm_compute; reflexivity. Qed.

(** C10. [add_key] for a role name that is not in the roles map raises
    [KeyError]: no role is created, and the roles map and the key store are
    as before. *)
Theorem add_key_unknown_role (r : Root.t) (role keyid : string)
    (key_metadata : Key.t) :
  Root.roles r !! role = None →
  (Root.add_key role keyid key_metadata r).2 = Raise KeyError ∧
  Root.roles (Root.add_key role keyid key_metadata r).1 = Root.roles r ∧
  Root.keys (Root.add_key role keyid key_metadata r).1 = Root.keys r.
Proof.
  intros Hrole.
  unfold Root.add_key, Root.keyids_add, Root.role_of, mbind, mutating_bind.
  by rewrite Hrole.
Qed.

Lemma add_key_unknown_role_witness :
  (Root.add_key "snapshot" "k3" a_key a_root).2 = Raise KeyError ∧
  Root.roles (Root.add_key "snapshot" "k3" a_key a_root).1 = Root.roles a_root ∧
  Root.keys (Root.add_key "snapshot" "k3" a_key a_root).1 = Root.keys a_root.
Proof.
  exact (add_key_unknown_role a_root "snapshot" "k3" a_key eq_refl).
Defined.

(** For a role that exists [add_key] cannot fail: the keyid joins the role's
    set and the key is stored under it. *)
Lemma add_key_known_role (r : Root.t) (role keyid : string)
    (key_metadata : Key.t) (keyinfo : Role.t) :
  Root.roles r !! role = Some keyinfo →
  Root.add_key role keyid key_metadata r =
    (Root.with_keys
       (Root.with_roles r
          (<[role := Root.with_keyids keyinfo ({[keyid]} ∪ Role.keyids keyinfo)]>
             (Root.roles r)))
       (<[keyid := key_metadata]> (Root.keys r)), Ok ()).
Proof.
  intros Hrole.
  unfold Root.add_key, Root.keyids_add, Root.role_of, mbind, mutating_bind.
  by rewrite Hrole.
Qed.

(** ** Calls that fail leave nothing behind *)

Lemma add_key_all_or_nothing role keyid key_metadata :
  all_or_nothing (Root.add_key role keyid key_metadata).
Proof.
  intros r e. destruct (Root.roles r !! role) as [keyinfo|] eqn:Hrole.
  - by rewrite (add_key_known_role _ _ _ _ _ Hrole).
  - unfold Root.add_key, Root.keyids_add, Root.role_of, mbind, mutating_bind.
    by rewrite Hrole.
Qed.

Lemma bump_version_all_or_nothing : all_or_nothing Signed.bump_version.
Proof. by intros s e. Qed.

Lemma bump_expiration_all_or_nothing plus_delta :
  all_or_nothing (Signed.bump_expiration plus_delta).
Proof.
  intros s e. unfold Signed.bump_expiration.
  by destruct (plus_delta (Signed.expires s)).
Qed.

Lemma targets_update_all_or_nothing filename fileinfo :
  all_or_nothing (Targets.update filename fileinfo).
Proof.
  intros s e. unfold Targets.update.
  by destruct (setitem (Targets.targets s) filename fileinfo).
Qed.

Lemma sign_all_or_nothing signer append signed_serializer :
  all_or_nothing (Metadata.sign signer append signed_serializer).
Proof.
  intros md e.
  unfold Metadata.sign, mbind, mutating_bind, self, pure. simpl.
  destruct (signed_serializer (Metadata.signed md)) as [data|]; [|done].
  simpl. destruct (signer data); [|done]. by destruct append.
Qed.

(** Once the entry of the file is in place, the assignments into it that
    follow cannot fail. *)
Lemma setitem2_after_setitem (m : value) (fn key : string) (v : value)
    (entry : dict) (m' : value) :
  setitem m fn (VDict entry) = Ok m' →
  ∃ d, m' = VDict d ∧ d !! fn = Some (VDict entry) ∧
       setitem2 m' fn key v = Ok (VDict (<[fn := VDict (<[key := v]> entry)]> d)).
Proof.
  destruct m; try done. intros [= <-]. eexists. split; [done|].
  split; [by rewrite lookup_insert_eq|].
  unfold setitem2. simpl. by rewrite lookup_insert_eq.
Qed.

Lemma timestamp_update_all_or_nothing version length hashes :
  all_or_nothing (Timestamp.update version length hashes).
Proof.
  intros s e.
  unfold Timestamp.update, Timestamp.assign_meta, mbind, mutating_bind,
    mret, mutating_ret.
  destruct (setitem (Timestamp.meta s) _ _) as [m1|] eqn:H1; [|done].
  simpl. intros Hfail. exfalso.
  destruct (setitem2_after_setitem _ _ "length" length _ _ H1)
    as (d1 & -> & Hd1 & Hlen).
  destruct (is_None length); simpl in Hfail.
  - destruct (is_None hashes); simpl in Hfail; [done|].
    destruct (setitem2_after_setitem _ _ "hashes" hashes _ _ H1)
      as (? & [= <-] & _ & Hh).
    by rewrite Hh in Hfail.
  - rewrite Hlen in Hfail. simpl in Hfail.
    destruct (is_None hashes); simpl in Hfail; [done|].
    unfold setitem2 in Hfail. simpl in Hfail.
    by rewrite lookup_insert_eq in Hfail.
Qed.

Lemma snapshot_update_all_or_nothing rolename version length hashes :
  all_or_nothing (Snapshot.update rolename version length hashes).
Proof.
  intros s e.
  unfold Snapshot.update, Snapshot.assign_meta, mbind, mutating_bind,
    mret, mutating_ret.
  destruct (setitem (Snapshot.meta s) _ _) as [m1|] eqn:H1; [|done].
  simpl. intros Hfail. exfalso.
  destruct (setitem2_after_setitem _ _ "length" length _ _ H1)
    as (d1 & -> & Hd1 & Hlen).
  destruct (is_None length); simpl in Hfail.
  - destruct (is_None hashes); simpl in Hfail; [done|].
    destruct (setitem2_after_setitem _ _ "hashes" hashes _ _ H1)
      as (? & [= <-] & _ & Hh).
    by rewrite Hh in Hfail.
  - rewrite Hlen in Hfail. simpl in Hfail.
    destruct (is_None hashes); simpl in Hfail; [done|].
    unfold setitem2 in Hfail. simpl in Hfail.
    by rewrite lookup_insert_eq in Hfail.
Qed.

(** Where every keyid a role names has its key in the store, a failed
    [remove_key] has changed nothing. *)
Lemma remove_key_all_or_nothing_when_keys_present (r : Root.t)
    (role keyid : string) (e : exn) :
  (∀ name keyinfo k, Root.roles r !! name = Some keyinfo →
                     k ∈ Role.keyids keyinfo → is_Some (Root.keys r !! k)) →
  (Root.remove_key role keyid r).2 = Raise e →
  (Root.remove_key role keyid r).1 = r.
Proof.
  intros Hstore. destruct (Root.roles r !! role) as [keyinfo|] eqn:Hrole.
  - rewrite (remove_key_unfold _ _ _ _ Hrole).
    case_bool_decide as Hin; [|done]. cbv zeta.
    destruct (Root.still_used _ _); [done|].
    destruct (Hstore role keyinfo keyid Hrole Hin) as [key ->]. done.
  - unfold Root.remove_key, Root.keyids_remove, Root.role_of, mbind,
      mutating_bind. by rewrite Hrole.
Qed.

Example dangling_root_decodes :
  (Root.from_dict dangling_root_record).2 = Ok dangling_root.
Proof. vm_compute. reflexivity. Qed.

(** C4. A failed call is to leave the object as it was.  [remove_key] does
    not in one case: when the keyid is in the role, no other role names it
    and the key store has no such key, the keyid has left the role by the
    time [del self.keys[keyid]] raises [KeyError]. *)
Theorem remove_key_fails_after_changing_role :
  Root.remove_key "root" "k1" dangling_root =
    (Root.with_roles dangling_root {[ "root" := a_role [] ]}, Raise KeyError) ∧
  ¬ all_or_nothing (Root.remove_key "root" "k1").
Proof.
  assert (Root.remove_key "root" "k1" dangling_root =
    (Root.with_roles dangling_root {[ "root" := a_role [] ]}, Raise KeyError))
    as Hrun by (vm_compute; reflexivity).
  split; [done|]. intros Hatomic.
  specialize (Hatomic dangling_root KeyError). rewrite Hrun in Hatomic.
  specialize (Hatomic eq_refl).
  apply (f_equal (λ r, Role.keyids <$> Root.roles r !! "root")) in Hatomic.
  vm_compute in Hatomic. discriminate.
Qed.

(** ** Decoding the signature list *)

(** C1. Two signatures of one keyid in the signature list are to make
    decoding fail.  [Metadata.from_dict] has no such check: it appends every
    signature to the list and returns the object; the repeated keyid is only
    met when [verify] finds two signatures for the key. *)
Theorem from_dict_accepts_repeated_keyid :
  ∃ md : Metadata.t,
    Metadata.from_dict twice_signed_record = (∅, Ok md) ∧
    Metadata.signatures md =
      [ {| Signature.keyid := "k1"; Signature.signature := "aa" |};
        {| Signature.keyid := "k1"; Signature.signature := "foo" |} ] ∧
    ∀ (verify_signature : Verifier) (signed_serializer : SignedSerializer),
      Metadata.verify verify_signature {[ "keyid" := VStr "k1" ]}
        signed_serializer md
      = Raise (Error (ManySignatures 2)).
Proof.
  eexists. split; [vm_compute; reflexivity|]. split; reflexivity.
Qed.

(** ** Signing and verifying *)

Section Signatures.
Context (signed_serializer : SignedSerializer) (verify_signature : Verifier).
Implicit Types (md : Metadata.t) (signer : Signer) (key : dict)
  (sig : Signature.t) (data : bytes).


Lemma sign_ok signer append md data sig :
  signed_serializer (Metadata.signed md) = Ok data →
  signer data = Ok sig →
  Metadata.sign signer append signed_serializer md =
    ({| Metadata.signed := Metadata.signed md;
        Metadata.signatures :=
          if append then Metadata.signatures md ++ [sig] else [sig] |},
     Ok sig).
Proof.
  intros Hdata Hsig.
  unfold Metadata.sign, mbind, mutating_bind, self, pure. simpl.
  rewrite Hdata. simpl. rewrite Hsig. by destruct append.
Qed.


End Signatures.



(** ** Failures of the verification primitive *)




(** ** What a [from_dict] leaves of the dict it is given *)

Section Popping.
Context {A B : Type}.
Implicit Types (d : dict) (k : string) (v : value).

Lemma bind_Ok_inv (m : Popping A) (f : A → Popping B) d d' b :
  (m ≫= f) d = (d', Ok b) →
  ∃ a d1, m d = (d1, Ok a) ∧ f a d1 = (d', Ok b).
Proof.
  unfold mbind, mutating_bind. destruct (m d) as [d1 [a|e]]; [|done].
  intros Hf. by exists a, d1.
Qed.

Lemma pure_Ok_inv (r : result A) d d' a :
  pure r d = (d', Ok a) → d' = d ∧ r = Ok a.
Proof. unfold pure. by intros [= -> ->]. Qed.

Lemma mret_Ok_inv (x : A) d d' a :
  (mret x : Popping A) d = (d', Ok a) → d' = d ∧ a = x.
Proof. unfold mret, mutating_ret. by intros [= -> ->]. Qed.
End Popping.

Lemma pop_Ok_inv k (d d' : dict) v :
  pop k d = (d', Ok v) → d !! k = Some v ∧ d' = delete k d.
Proof. unfold pop. destruct (d !! k); [|done]. by intros [= <- <-]. Qed.

Lemma pop_or_None_Ok_inv k (d d' : dict) v :
  pop_or_None k d = (d', Ok v) →
  v = default VNone (d !! k) ∧ d' = delete k d.
Proof.
  unfold pop_or_None. destruct (d !! k) eqn:Hk; intros [= <- <-]; [done|].
  by rewrite delete_id.
Qed.

Lemma getitem_Ok_inv k (d d' : dict) v :
  getitem k d = (d', Ok v) → d !! k = Some v ∧ d' = d.
Proof.
  unfold getitem. simpl. destruct (d !! k); [|done]. by intros [= <- <-].
Qed.

Lemma self_Ok_inv (d d' a : dict) : self d = (d', Ok a) → d' = d ∧ a = d.
Proof. unfold self. by intros [= -> ->]. Qed.

(** Take a successful run of a [from_dict] apart, call by call. *)
Ltac run_inv H :=
  repeat
    match type of H with
    | (_ ≫= _) _ = (_, Ok _) =>
        let a := fresh "a" in
        let d := fresh "d" in
        let Hm := fresh "Hm" in
        apply bind_Ok_inv in H as (a & d & Hm & H);
        first
          [ apply pop_Ok_inv in Hm as [Hm ->]
          | apply pop_or_None_Ok_inv in Hm as [-> ->]
          | apply getitem_Ok_inv in Hm as [Hm ->]
          | apply self_Ok_inv in Hm as [-> ->]
          | apply pure_Ok_inv in Hm as [-> Hm]
          | idtac ]
    | pure _ _ = (_, Ok _) => apply pure_Ok_inv in H as [-> H]
    | mret _ _ = (_, Ok _) => apply mret_Ok_inv in H as [-> H]
    | (let '(_, _) := ?x in _) _ = _ => destruct x as [[? ?] ?]
    | (if ?b then _ else _) _ = _ => destruct b eqn:?; [|try done]
    end.

(** An entry that was popped was there before the earlier pops. *)
Ltac undelete :=
  repeat
    match goal with
    | H : delete _ _ !! _ = Some _ |- _ =>
        apply lookup_delete_Some in H as [_ H]
    end.

Lemma key_from_dict_inv (key_dict key_dict' : dict) (key : Key.t) :
  Key.from_dict key_dict = (key_dict', Ok key) →
  key_dict' = delete "keyval" (delete "scheme" (delete "keytype" key_dict)) ∧
  Key.unrecognized_fields key = key_dict' ∧
  key_dict !! "keytype" = Some (Key.keytype key) ∧
  key_dict !! "scheme" = Some (Key.scheme key) ∧
  key_dict !! "keyval" = Some (VDict (Key.keyval key)).
Proof.
  unfold Key.from_dict. intros H. run_inv H.
  unfold Key.init in H. destruct a1; try done. simpl in H.
  destruct (truthy _); [|done]. injection H as <-. simpl.
  undelete. by repeat split.
Qed.

(** Put the popped entries back: both sides have the same entry under every
    key. *)
Ltac restore :=
  let i := fresh "i" in
  apply map_eq; intros i;
  repeat (rewrite lookup_union || rewrite lookup_insert || rewrite lookup_delete
          || rewrite lookup_empty || rewrite lookup_singleton);
  repeat case_decide; simplify_eq; simpl; try done;
  repeat match goal with
         | |- context [?d !! i] => destruct (d !! i)
         end;
  done.

(** ** Loops over lists and dicts *)

Section ForEach.
Context {A B : Type} (f : A → result B).

Lemma for_each_Forall2 (l : list A) (l' : list B) :
  for_each f l = Ok l' → Forall2 (λ a b, f a = Ok b) l l'.
Proof.
  revert l'. induction l as [|a l IH]; intros l'; simpl.
  - intros [= <-]. constructor.
  - destruct (f a) as [b|] eqn:Hb; [|done]. simpl.
    destruct (for_each f l) as [bs|]; [|done]. simpl.
    intros [= <-]. constructor; [done|]. by apply IH.
Qed.

Lemma for_each_back (g : B → A) (l : list A) (l' : list B) :
  for_each f l = Ok l' →
  (∀ a b, a ∈ l → f a = Ok b → g b = a) →
  g <$> l' = l.
Proof.
  intros Hrun%for_each_Forall2 Hback.
  induction Hrun as [|a b l l' Hab _ IH]; [done|]. simpl. f_equal.
  - apply Hback; [left|done].
  - apply IH. intros a' b' Hin. apply Hback. by right.
Qed.

End ForEach.

Section ForItems.
Context {A B : Type} (f : A → result B).

Lemma for_items_lookup (m : gmap string A) (m' : gmap string B) (k : string) :
  for_items f m = Ok m' →
  option_Forall2 (λ a b, f a = Ok b) (m !! k) (m' !! k).
Proof.
  unfold for_items.
  destruct (for_each _ (map_to_list m)) as [l'|] eqn:Hrun; [|done].
  simpl. intros [= <-]. apply for_each_Forall2 in Hrun.
  assert (Forall2 (λ kv kv', kv'.1 = kv.1 ∧ f kv.2 = Ok kv'.2)
            (map_to_list m) l') as Hall.
  { eapply Forall2_impl; [done|]. intros [k1 a] [k2 b]. simpl.
    destruct (f a); [|done]. simpl. by intros [= -> ->]. }
  assert (l'.*1 = (map_to_list m).*1) as Hkeys.
  { clear Hrun. induction Hall as [|?? ?? [? _] _ IH]; [done|].
    simpl. by f_equal. }
  assert (NoDup l'.*1) as Hnodup
    by (rewrite Hkeys; apply NoDup_fst_map_to_list).
  destruct (m !! k) as [a|] eqn:Hk.
  - apply elem_of_map_to_list in Hk.
    apply list_elem_of_lookup in Hk as [n Hn].
    destruct (Forall2_lookup_l _ _ _ _ _ Hall Hn) as ([k' b] & Hn' & Hk' & Hb).
    simpl in *. subst k'.
    assert (list_to_map l' !! k = Some b) as ->.
    { apply elem_of_list_to_map; [done|].
      apply list_elem_of_lookup. by exists n. }
    by constructor.
  - assert (list_to_map l' !! k = None (A:=B)) as ->; [|constructor].
    apply not_elem_of_list_to_map. rewrite Hkeys.
    intros ([k' a] & -> & Hin)%list_elem_of_fmap.
    apply elem_of_map_to_list in Hin. simpl in Hk. congruence.
Qed.

Lemma for_items_back (g : B → A) (m : gmap string A) (m' : gmap string B) :
  for_items f m = Ok m' →
  (∀ k a b, m !! k = Some a → f a = Ok b → g b = a) →
  g <$> m' = m.
Proof.
  intros Hrun Hback. apply map_eq. intros k. rewrite lookup_fmap.
  pose proof (for_items_lookup m m' k Hrun) as Hk.
  inversion Hk as [a b Hab Ha Hb|]; [|done]. simpl. f_equal.
  by apply (Hback k).
Qed.
End ForItems.

(** ** Decoding, field by field *)

Lemma is_str_true (s : string) (v : value) : is_str s v = true → v = VStr s.
Proof.
  destruct v; simpl; try done. by intros ->%bool_decide_eq_true.
Qed.

Lemma as_str_list_inv (v : value) (ids : list string) :
  as_str_list v = Ok ids → v = str_list ids.
Proof.
  destruct v as [| | | |l|]; try done. simpl. intros Hrun.
  unfold str_list. f_equal. symmetry.
  apply (for_each_back as_str VStr l ids Hrun).
  intros a s _. destruct a; try done. by intros [= ->].
Qed.

Lemma signed_init_inv (version spec_version : value) (expires : datetime)
    (unrecognized_fields : dict) (s : Signed.t) :
  Signed.init version spec_version expires unrecognized_fields = Ok s →
  version = VInt (Signed.version s) ∧ 0 < Signed.version s ∧
  Signed.spec_version s = spec_version ∧ Signed.expires s = expires ∧
  Signed.unrecognized_fields s = unrecognized_fields.
Proof.
  unfold Signed.init. destruct version; try done. simpl.
  destruct (Z.leb_spec z 0); [done|]. by intros [= <-].
Qed.

Section Decoding.
Context `{Runtime}.

Lemma common_fields_inv (signed_type : string) (d d' : dict)
    (version spec_version : value) (expires : datetime) :
  Signed._common_fields_from_dict signed_type d
  = (d', Ok (version, spec_version, expires)) →
  d' = delete "expires" (delete "spec_version" (delete "version"
         (delete "_type" d))) ∧
  d !! "_type" = Some (VStr signed_type) ∧
  d !! "version" = Some version ∧
  d !! "spec_version" = Some spec_version ∧
  ∃ expires_str, d !! "expires" = Some expires_str ∧
                 expiry_string_to_datetime expires_str = Ok expires.
Proof.
  unfold Signed._common_fields_from_dict. intros Hrun. run_inv Hrun.
  undelete. simplify_eq.
  match goal with Hty : is_str _ _ = true |- _ =>
    apply is_str_true in Hty; subst end.
  repeat split; try done. by eexists.
Qed.

Lemma timestamp_from_dict_inv (d d' : dict) (s : Timestamp.t) :
  Timestamp.from_dict d = (d', Ok s) →
  d' = delete "meta" (delete "expires" (delete "spec_version"
         (delete "version" (delete "_type" d)))) ∧
  Signed.unrecognized_fields (Timestamp.signed s) = d' ∧
  d !! "_type" = Some (VStr "timestamp") ∧
  d !! "version" = Some (VInt (Signed.version (Timestamp.signed s))) ∧
  d !! "spec_version" = Some (Signed.spec_version (Timestamp.signed s)) ∧
  d !! "meta" = Some (Timestamp.meta s) ∧
  ∃ expires_str,
    d !! "expires" = Some expires_str ∧
    expiry_string_to_datetime expires_str
    = Ok (Signed.expires (Timestamp.signed s)).
Proof.
  unfold Timestamp.from_dict. intros Hrun. run_inv Hrun.
  apply common_fields_inv in Hm as (-> & Hty & Hv & Hsv & es & Hes & He).
  undelete. unfold Timestamp.init in Hrun.
  destruct (Signed.init _ _ _ _) as [base|] eqn:Hbase; [|done].
  injection Hrun as <-. simpl.
  apply signed_init_inv in Hbase as (-> & _ & <- & <- & ->).
  repeat split; try done. by exists es.
Qed.

Lemma snapshot_from_dict_inv (d d' : dict) (s : Snapshot.t) :
  Snapshot.from_dict d = (d', Ok s) →
  d' = delete "meta" (delete "expires" (delete "spec_version"
         (delete "version" (delete "_type" d)))) ∧
  Signed.unrecognized_fields (Snapshot.signed s) = d' ∧
  d !! "_type" = Some (VStr "snapshot") ∧
  d !! "version" = Some (VInt (Signed.version (Snapshot.signed s))) ∧
  d !! "spec_version" = Some (Signed.spec_version (Snapshot.signed s)) ∧
  d !! "meta" = Some (Snapshot.meta s) ∧
  ∃ expires_str,
    d !! "expires" = Some expires_str ∧
    expiry_string_to_datetime expires_str
    = Ok (Signed.expires (Snapshot.signed s)).
Proof.
  unfold Snapshot.from_dict. intros Hrun. run_inv Hrun.
  apply common_fields_inv in Hm as (-> & Hty & Hv & Hsv & es & Hes & He).
  undelete. unfold Snapshot.init in Hrun.
  destruct (Signed.init _ _ _ _) as [base|] eqn:Hbase; [|done].
  injection Hrun as <-. simpl.
  apply signed_init_inv in Hbase as (-> & _ & <- & <- & ->).
  repeat split; try done. by exists es.
Qed.

Lemma role_init_inv (keyids threshold : value) (unrecognized_fields : dict)
    (r : Role.t) :
  Role.init keyids threshold unrecognized_fields = Ok r →
  Role.threshold r = threshold ∧
  Role.unrecognized_fields r = unrecognized_fields ∧
  ∃ ids, keyids = str_list ids ∧ Role.keyids r = list_to_set ids ∧
         size (Role.keyids r) = length ids.
Proof.
  unfold Role.init.
  destruct (as_str_list keyids) as [ids|] eqn:Hids; [|done]. simpl.
  case_bool_decide as Hsize; [done|]. intros [= <-]. simpl.
  apply as_str_list_inv in Hids. repeat split. by exists ids.
Qed.

Lemma role_from_dict_inv (d d' : dict) (r : Role.t) :
  Role.from_dict d = (d', Ok r) →
  d' = delete "threshold" (delete "keyids" d) ∧
  Role.unrecognized_fields r = d' ∧
  d !! "threshold" = Some (Role.threshold r) ∧
  ∃ ids, d !! "keyids" = Some (str_list ids) ∧
         Role.keyids r = list_to_set ids.
Proof.
  unfold Role.from_dict. intros Hrun. run_inv Hrun. undelete.
  apply role_init_inv in Hrun as (<- & -> & ids & -> & Hids & _).
  repeat split; try done. by exists ids.
Qed.

Lemma delegated_role_from_dict_inv (d d' : dict) (r : DelegatedRole.t) :
  DelegatedRole.from_dict d = (d', Ok r) →
  d' = delete "path_hash_prefixes" (delete "paths" (delete "terminating"
         (delete "threshold" (delete "keyids" (delete "name" d))))) ∧
  Role.unrecognized_fields (DelegatedRole.role r) = d' ∧
  d !! "name" = Some (DelegatedRole.name r) ∧
  d !! "threshold" = Some (Role.threshold (DelegatedRole.role r)) ∧
  d !! "terminating" = Some (DelegatedRole.terminating r) ∧
  DelegatedRole.paths r = default VNone (d !! "paths") ∧
  DelegatedRole.path_hash_prefixes r
    = default VNone (d !! "path_hash_prefixes") ∧
  truthy (DelegatedRole.paths r)
    && truthy (DelegatedRole.path_hash_prefixes r) = false ∧
  ∃ ids, d !! "keyids" = Some (str_list ids) ∧
         Role.keyids (DelegatedRole.role r) = list_to_set ids.
Proof.
  unfold DelegatedRole.from_dict. intros Hrun. run_inv Hrun. undelete.
  rewrite !lookup_delete_ne in Hrun by done.
  unfold DelegatedRole.init in Hrun.
  destruct (Role.init _ _ _) as [base|] eqn:Hbase; [|done]. simpl in Hrun.
  destruct (truthy _ && truthy _) eqn:Hboth; [done|].
  injection Hrun as <-. simpl.
  apply role_init_inv in Hbase as (<- & -> & ids & -> & Hids & _).
  repeat split; try done. by exists ids.
Qed.
End Decoding.

(** ** Decoding and encoding again *)

Section RoundTrip.
Context `{Runtime}.

Lemma key_round_trip (key_dict key_dict' : dict) (key : Key.t) :
  Key.from_dict key_dict = (key_dict', Ok key) →
  Key.to_dict key = key_dict.
Proof.
  intros (-> & Hu & H1 & H2 & H3)%key_from_dict_inv.
  unfold Key.to_dict. rewrite Hu. restore.
Qed.

Lemma role_round_trip (d d' : dict) (r : Role.t) :
  Role.from_dict d = (d', Ok r) →
  in_set_order d →
  Role.to_dict r = d.
Proof.
  intros (-> & Hu & Hthreshold & ids & Hkeyids & Hset)%role_from_dict_inv
    Horder.
  unfold Role.to_dict. rewrite Hu, Hset, (Horder ids Hkeyids). restore.
Qed.

Lemma delegated_role_round_trip (d d' : dict) (r : DelegatedRole.t) :
  DelegatedRole.from_dict d = (d', Ok r) →
  in_set_order d →
  filled_if_present "paths" d →
  filled_if_present "path_hash_prefixes" d →
  DelegatedRole.to_dict r = d.
Proof.
  intros (-> & Hu & Hname & Hthreshold & Hterminating & Hpaths & Hprefixes
          & Hone & ids & Hkeyids & Hset)%delegated_role_from_dict_inv
    Horder Hfilled Hfilled'.
  unfold DelegatedRole.to_dict, Role.to_dict.
  rewrite Hu, Hset, (Horder ids Hkeyids). rewrite Hpaths, Hprefixes in *.
  destruct (d !! "paths") as [paths|] eqn:Hp;
    destruct (d !! "path_hash_prefixes") as [prefixes|] eqn:Hq; simpl in *.
  - rewrite (Hfilled paths), (Hfilled' prefixes) in Hone; done.
  - rewrite (Hfilled paths) by done. restore.
  - rewrite (Hfilled' prefixes) by done. restore.
  - restore.
Qed.

Lemma timestamp_round_trip (d d' : dict) (s : Timestamp.t) :
  expires_as_written d →
  Timestamp.from_dict d = (d', Ok s) →
  Timestamp.to_dict s = d.
Proof.
  intros Hexact (-> & Hu & Hty & Hv & Hsv & Hmeta & es & Hes & He)
    %timestamp_from_dict_inv.
  apply (Hexact _ _ Hes) in He as ->.
  unfold Timestamp.to_dict, Signed._common_fields_to_dict. rewrite Hu.
  restore.
Qed.

Lemma snapshot_round_trip (d d' : dict) (s : Snapshot.t) :
  expires_as_written d →
  Snapshot.from_dict d = (d', Ok s) →
  Snapshot.to_dict s = d.
Proof.
  intros Hexact (-> & Hu & Hty & Hv & Hsv & Hmeta & es & Hes & He)
    %snapshot_from_dict_inv.
  apply (Hexact _ _ Hes) in He as ->.
  unfold Snapshot.to_dict, Signed._common_fields_to_dict. rewrite Hu.
  restore.
Qed.

Lemma from_value_inv {A} (from_dict : Popping A) (v : value) (a : A) :
  from_value from_dict v = Ok a →
  ∃ d d', v = VDict d ∧ from_dict d = (d', Ok a).
Proof.
  unfold from_value. destruct v as [| | | | |d]; try done. simpl.
  destruct (from_dict d) as [d' r] eqn:Hrun. simpl. intros ->.
  by exists d, d'.
Qed.

Lemma delegations_from_dict_inv (d d' : dict) (x : Delegations.t) :
  Delegations.from_dict d = (d', Ok x) →
  d' = delete "roles" (delete "keys" d) ∧
  Delegations.unrecognized_fields x = d' ∧
  ∃ keys roles items,
    d !! "keys" = Some (VDict keys) ∧
    for_items (from_value Key.from_dict) keys = Ok (Delegations.keys x) ∧
    d !! "roles" = Some roles ∧
    iterate roles = Ok items ∧
    for_each (from_value DelegatedRole.from_dict) items
    = Ok (Delegations.roles x).
Proof.
  unfold Delegations.from_dict. intros Hrun. run_inv Hrun. undelete.
  simplify_eq. simpl.
  destruct a as [| | | | |keys]; try done. simpl in Hm0.
  destruct (iterate a1) as [items|] eqn:Hitems; [|done]. simpl in Hm2.
  repeat split. by exists keys, a1, items.
Qed.

Lemma delegations_round_trip (d d' : dict) (x : Delegations.t) :
  Delegations.from_dict d = (d', Ok x) →
  delegations_record_plain (VDict d) →
  Delegations.to_dict x = d.
Proof.
  intros (-> & Hu & keys & roles & items & Hkeys & Hkeys' & Hroles & Hitems
          & Hroles')%delegations_from_dict_inv Hplain.
  destruct (Hplain d eq_refl) as (roles' & Hlist & Hplain').
  rewrite Hroles in Hlist. injection Hlist as ->.
  simpl in Hitems. injection Hitems as <-.
  unfold Delegations.to_dict. rewrite Hu.
  rewrite (for_items_back _ (λ key, VDict (Key.to_dict key)) _ _ Hkeys').
  2:{ intros k a b _ (kd & kd' & -> & Hkey)%from_value_inv.
      f_equal. by apply (key_round_trip _ kd'). }
  rewrite (for_each_back _ (λ role, VDict (DelegatedRole.to_dict role))
             _ _ Hroles').
  2:{ intros a b Hin (rd & rd' & -> & Hrole)%from_value_inv.
      destruct (Hplain' _ Hin rd eq_refl) as (Horder & Hp & Hq).
      f_equal. by apply (delegated_role_round_trip _ rd'). }
  restore.
Qed.

Lemma root_from_dict_inv (d d' : dict) (r : Root.t) :
  Root.from_dict d = (d', Ok r) →
  d' = delete "roles" (delete "keys" (delete "consistent_snapshot"
         (delete "expires" (delete "spec_version" (delete "version"
            (delete "_type" d)))))) ∧
  Signed.unrecognized_fields (Root.signed r) = d' ∧
  d !! "_type" = Some (VStr "root") ∧
  d !! "version" = Some (VInt (Signed.version (Root.signed r))) ∧
  d !! "spec_version" = Some (Signed.spec_version (Root.signed r)) ∧
  d !! "consistent_snapshot" = Some (Root.consistent_snapshot r) ∧
  (∃ expires_str,
     d !! "expires" = Some expires_str ∧
     expiry_string_to_datetime expires_str
     = Ok (Signed.expires (Root.signed r))) ∧
  ∃ keys roles,
    d !! "keys" = Some (VDict keys) ∧
    for_items (from_value Key.from_dict) keys = Ok (Root.keys r) ∧
    d !! "roles" = Some (VDict roles) ∧
    for_items (from_value Role.from_dict) roles = Ok (Root.roles r).
Proof.
  unfold Root.from_dict. intros Hrun. run_inv Hrun.
  apply common_fields_inv in Hm as (-> & Hty & Hv & Hsv & es & Hes & He).
  undelete. unfold Root.init in Hrun.
  destruct (Signed.init _ _ _ _) as [base|] eqn:Hbase; [|done].
  injection Hrun as <-. simpl.
  apply signed_init_inv in Hbase as (-> & _ & <- & <- & ->).
  repeat match goal with
         | Hitems : dict_receiver ?v ≫= _ = Ok _ |- _ =>
             destruct v; try done; simpl in Hitems
         end.
  repeat split; try done; [by exists es|by eexists _, _].
Qed.

Lemma root_round_trip (d d' : dict) (r : Root.t) :
  expires_as_written d →
  Root.from_dict d = (d', Ok r) →
  root_record_plain d →
  Root.to_dict r = d.
Proof.
  intros Hexact (-> & Hu & Hty & Hv & Hsv & Hcs & (es & Hes & He)
                 & keys & roles & Hkeys & Hkeys' & Hroles & Hroles')
    %root_from_dict_inv Hplain.
  apply (Hexact _ _ Hes) in He as ->.
  unfold Root.to_dict, Signed._common_fields_to_dict. rewrite Hu.
  rewrite (for_items_back _ (λ key, VDict (Key.to_dict key)) _ _ Hkeys').
  2:{ intros k a b _ (kd & kd' & -> & Hkey)%from_value_inv.
      f_equal. by apply (key_round_trip _ kd'). }
  rewrite (for_items_back _ (λ role, VDict (Role.to_dict role)) _ _ Hroles').
  2:{ intros k a b Hk (rd & rd' & -> & Hrole)%from_value_inv.
      f_equal. apply (role_round_trip _ rd'); [done|].
      by apply (Hplain roles k (VDict rd)). }
  restore.
Qed.

Lemma targets_from_dict_inv (d d' : dict) (s : Targets.t) :
  Targets.from_dict d = (d', Ok s) →
  d' = delete "delegations" (delete "targets" (delete "expires"
         (delete "spec_version" (delete "version" (delete "_type" d))))) ∧
  Signed.unrecognized_fields (Targets.signed s) = d' ∧
  d !! "_type" = Some (VStr "targets") ∧
  d !! "version" = Some (VInt (Signed.version (Targets.signed s))) ∧
  d !! "spec_version" = Some (Signed.spec_version (Targets.signed s)) ∧
  d !! "targets" = Some (Targets.targets s) ∧
  (∃ expires_str,
     d !! "expires" = Some expires_str ∧
     expiry_string_to_datetime expires_str
     = Ok (Signed.expires (Targets.signed s))) ∧
  (if truthy (default VNone (d !! "delegations"))
   then Some <$> from_value Delegations.from_dict
                   (default VNone (d !! "delegations"))
   else Ok None) = Ok (Targets.delegations s).
Proof.
  unfold Targets.from_dict. intros Hrun. run_inv Hrun.
  apply common_fields_inv in Hm as (-> & Hty & Hv & Hsv & es & Hes & He).
  undelete. rewrite !lookup_delete_ne in * by done.
  unfold Targets.init in Hrun.
  destruct (Signed.init _ _ _ _) as [base|] eqn:Hbase; [|done].
  injection Hrun as <-. simpl.
  apply signed_init_inv in Hbase as (-> & _ & <- & <- & ->).
  repeat split; try done. by exists es.
Qed.

Lemma targets_round_trip (d d' : dict) (s : Targets.t) :
  expires_as_written d →
  Targets.from_dict d = (d', Ok s) →
  targets_record_plain d →
  Targets.to_dict s = d.
Proof.
  intros Hexact (-> & Hu & Hty & Hv & Hsv & Htargets & (es & Hes & He)
                 & Hdelegations)%targets_from_dict_inv [Hfilled Hplain].
  apply (Hexact _ _ Hes) in He as ->.
  unfold Targets.to_dict, Signed._common_fields_to_dict. rewrite Hu.
  pose proof (Hfilled : filled_if_present "delegations" d) as Hfilled'.
  unfold filled_if_present in Hfilled'.
  destruct (d !! "delegations") as [delegations|] eqn:Hd; simpl in *.
  - rewrite (Hfilled' delegations eq_refl) in Hdelegations.
    destruct (from_value _ _) as [x|] eqn:Hx; [|done].
    injection Hdelegations as <-.
    apply from_value_inv in Hx as (dd & dd' & -> & Hx).
    rewrite (delegations_round_trip dd dd' x Hx (Hplain _ eq_refl)).
    restore.
  - injection Hdelegations as <-. restore.
Qed.

Lemma payload_round_trip (cls : payload_class) (d d' : dict) (s : payload) :
  expires_as_written d →
  class_from_dict cls d = (d', Ok s) →
  record_plain cls d →
  payload_to_dict s = d.
Proof.
  intros Hexact Hrun Hplain.
  destruct cls; simpl in Hrun;
    apply bind_Ok_inv in Hrun as (x & d1 & Hx & [_ ->]%mret_Ok_inv); simpl.
  - by apply (targets_round_trip d d1).
  - by apply (snapshot_round_trip d d1).
  - by apply (timestamp_round_trip d d1).
  - by apply (root_round_trip d d1).
Qed.
End RoundTrip.

Lemma str_list_inj (a b : list string) : str_list a = str_list b → a = b.
Proof.
  unfold str_list. intros [= Heq]. revert b Heq.
  induction a as [|x a IH]; intros [|y b]; simpl; try done.
  intros [= -> Heq]. f_equal. by apply IH.
Qed.

(** C2 fails as stated.  A targets record whose delegated role has an empty
    "paths" list decodes, and the encoding of what was decoded has lost the
    entry. *)
Lemma to_dict_does_not_undo_from_dict :
  (∃ s : payload,
     class_from_dict ClsTargets (targets_record role_with_empty_paths)
     = (({[ "f" := VStr "b" ]} : dict), Ok s) ∧
     paths_of_first_role (targets_record role_with_empty_paths)
     = Some (VList []) ∧
     paths_of_first_role (payload_to_dict s) = None ∧
     payload_to_dict s ≠ targets_record role_with_empty_paths) ∧
  ¬ @to_dict_undoes_from_dict Reference.runtime.
Proof.
  assert (∀ d, paths_of_first_role d = None →
               d ≠ targets_record role_with_empty_paths) as Hne.
  { intros d Hd Heq. rewrite Heq in Hd. vm_compute in Hd. discriminate. }
  split.
  - eexists. split; [vm_compute; reflexivity|].
    split; [reflexivity|]. split; [vm_compute; reflexivity|].
    apply Hne. vm_compute. reflexivity.
  - intros Hclaim. eapply Hne; [|eapply (Hclaim ClsTargets)].
    2:{ vm_compute. reflexivity. }
    vm_compute. reflexivity.
Qed.

(** A list of at most one keyid is in the order of its set, whatever that
    order is, as long as walking a set yields its members. *)
Lemma one_keyid_in_set_order `{Runtime} (d : dict) (keyid : string) :
  (∀ X : gset string, set_order X ≡ₚ elements X) →
  d !! "keyids" = Some (str_list [keyid]) →
  in_set_order d.
Proof.
  intros Hwalk Hd ids Hids. rewrite Hd in Hids.
  assert (str_list [keyid] = str_list ids) as <-%str_list_inj by congruence.
  apply Permutation_singleton_r. rewrite Hwalk. simpl.
  by rewrite (right_id_L ∅ (∪)), elements_singleton.
Qed.

(** C2, as the code has it.  For each of the four payload types, a record
    that decodes is given back by encoding the decoded payload, fields the
    model does not recognize included at every level (payload, key records,
    role records, delegation records), provided the record is plain: each
    role lists its keyids in the order of the key-id set, each delegated
    role has a non-empty "paths" and "path_hash_prefixes" where it has the
    entry at all, "delegations" is non-empty where it is present, the
    delegated roles are a list, and the "expires" string of the record is
    the one that [isoformat() + "Z"] writes for the time it is parsed to. *)
Theorem to_dict_undoes_from_dict_on_plain_records `{Runtime}
    (cls : payload_class) (d d' : dict) (s : payload) :
  expires_as_written d →
  class_from_dict cls d = (d', Ok s) →
  record_plain cls d →
  payload_to_dict s = d.
Proof. apply payload_round_trip. Qed.

(** The same through [Metadata.from_dict], as
    [test_support_for_unrecognized_fields] compares it. *)
Lemma signed_part_comes_back `{Runtime} (metadata metadata' signed : dict)
    (md : Metadata.t) (cls : payload_class) :
  expires_as_written signed →
  Metadata.from_dict metadata = (metadata', Ok md) →
  metadata !! "signed" = Some (VDict signed) →
  Metadata.dispatch (default VNone (signed !! "_type")) = Ok cls →
  record_plain cls signed →
  payload_to_dict (Metadata.signed md) = signed.
Proof.
  intros Hexact Hrun Hsigned Hcls Hplain.
  unfold Metadata.from_dict in Hrun. run_inv Hrun. undelete. simplify_eq.
  simpl in *.
  destruct (signed !! "_type") as [ty|]; [|done]. simplify_eq. simpl in *.
  match goal with
  | Hv : from_value _ _ = Ok _ |- _ =>
      apply from_value_inv in Hv as (? & ? & [= <-] & Hv)
  end.
  eapply payload_round_trip; [done|done|]. congruence.
Qed.

Lemma a_root_record_plain : @root_record_plain Reference.runtime a_root_record.
Proof.
  intros roles name role Hroles Hrole.
  assert (roles = {[ "root" := a_role_record ]}) as ->.
  { change (a_root_record !! "roles")
      with (Some (VDict {[ "root" := a_role_record ]})) in Hroles.
    congruence. }
  apply lookup_singleton_Some in Hrole as [<- <-].
  intros d [= <-]. by apply (one_keyid_in_set_order _ "k1").
Qed.

Lemma a_root_record_expires_as_written :
  @expires_as_written Reference.runtime a_root_record.
Proof.
  intros v t Hexpires Hparse. vm_compute in Hexpires.
  injection Hexpires as <-. vm_compute in Hparse. injection Hparse as <-.
  vm_compute. reflexivity.
Qed.

Lemma to_dict_undoes_from_dict_on_plain_records_witness :
  ∃ s : payload,
    @class_from_dict Reference.runtime ClsRoot a_root_record
    = (({[ "f" := VStr "b" ]} : dict), Ok s) ∧
    @payload_to_dict Reference.runtime s = a_root_record.
Proof.
  eexists. split; [vm_compute; reflexivity|].
  eapply (@to_dict_undoes_from_dict_on_plain_records Reference.runtime ClsRoot
            a_root_record).
  - exact a_root_record_expires_as_written.
  - vm_compute. reflexivity.
  - exact a_root_record_plain.
Defined.

(** ** What decoding does to the record it is given *)

Lemma without_lookup (keys : list string) (d : dict) (k : string) :
  without keys d !! k = if decide (k ∈ keys) then None else d !! k.
Proof.
  induction keys as [|k' keys IH]; simpl.
  - destruct (decide (k ∈ [])) as [Hin|]; [|done]. by apply elem_of_nil in Hin.
  - rewrite lookup_delete, IH.
    repeat case_decide; try done; rewrite elem_of_cons in *;
      intuition congruence.
Qed.

Lemma without_gone (keys : list string) (d : dict) (k : string) :
  k ∈ keys → without keys d !! k = None.
Proof. intros Hin. by rewrite without_lookup, decide_True. Qed.

(** C9. [Metadata.from_dict] changes the dict it is given: after a
    successful call the entries "signatures" and "signed", which were there,
    are gone from it, so the caller's record is not what it was.  The nested
    constructors do the same to their dicts: [Key.from_dict] pops "keytype",
    "scheme" and "keyval" and keeps what is left as the key's unrecognized
    fields, [Signed._common_fields_from_dict] pops "_type", "version",
    "spec_version" and "expires". *)
Theorem from_dict_pops_its_input `{Runtime}
    (metadata metadata' : dict) (md : Metadata.t)
    (key_dict key_dict' : dict) (key : Key.t)
    (signed_type : string) (signed_dict signed_dict' : dict)
    (common_args : value * value * datetime) :
  Metadata.from_dict metadata = (metadata', Ok md) →
  Key.from_dict key_dict = (key_dict', Ok key) →
  Signed._common_fields_from_dict signed_type signed_dict
  = (signed_dict', Ok common_args) →
  (metadata' = without ["signed"; "signatures"] metadata ∧
   Forall (λ k, is_Some (metadata !! k) ∧ metadata' !! k = None)
     ["signatures"; "signed"] ∧
   metadata' ≠ metadata) ∧
  (key_dict' = without ["keyval"; "scheme"; "keytype"] key_dict ∧
   Forall (λ k, is_Some (key_dict !! k) ∧ key_dict' !! k = None)
     ["keytype"; "scheme"; "keyval"] ∧
   Key.unrecognized_fields key = key_dict') ∧
  (signed_dict' = without ["expires"; "spec_version"; "version"; "_type"]
                    signed_dict ∧
   Forall (λ k, is_Some (signed_dict !! k) ∧ signed_dict' !! k = None)
     ["_type"; "version"; "spec_version"; "expires"]).
Proof.
  intros Hmd Hkey Hcommon.
  assert (∀ (k : string) keys (d : dict), In k keys → without keys d !! k = None)
    as Hgone by (intros ??? Hin; by apply without_gone, list_elem_of_In).
  split; [|split].
  - unfold Metadata.from_dict in Hmd. run_inv Hmd. undelete.
    change (delete "signed" (delete "signatures" metadata))
      with (without ["signed"; "signatures"] metadata).
    split; [done|]. split.
    + rewrite !Forall_cons. repeat split; try done;
        apply Hgone; simpl; auto.
    + intros Heq. apply (f_equal (λ d : dict, d !! "signed")) in Heq.
      rewrite Hgone in Heq by (simpl; auto). congruence.
  - apply key_from_dict_inv in Hkey as (-> & -> & H1 & H2 & H3).
    change (delete "keyval" (delete "scheme" (delete "keytype" key_dict)))
      with (without ["keyval"; "scheme"; "keytype"] key_dict).
    split; [done|]. split; [|done].
    rewrite !Forall_cons. repeat split; try done; apply Hgone; simpl; auto.
  - destruct common_args as [[version spec_version] expires].
    apply common_fields_inv in Hcommon as (-> & H1 & H2 & H3 & es & H4 & _).
    change (delete "expires" (delete "spec_version" (delete "version"
              (delete "_type" signed_dict))))
      with (without ["expires"; "spec_version"; "version"; "_type"] signed_dict).
    split; [done|].
    rewrite !Forall_cons. repeat split; try done; apply Hgone; simpl; auto.
Qed.

Lemma from_dict_pops_its_input_witness :
  let metadata' : dict := ∅ in
  let key_dict' : dict := {[ "d" := VStr "c" ]} in
  let signed_dict' : dict :=
    {[ "meta" := VDict {[ "targets.json" := VDict {[ "version" := VInt 1 ]} ]} ]} in
  ∃ key : Key.t,
    (metadata' = without ["signed"; "signatures"] a_metadata_record ∧
     Forall (λ k, is_Some (a_metadata_record !! k) ∧ metadata' !! k = None)
       ["signatures"; "signed"] ∧
     metadata' ≠ a_metadata_record) ∧
    (key_dict' = without ["keyval"; "scheme"; "keytype"] a_key_dict ∧
     Forall (λ k, is_Some (a_key_dict !! k) ∧ key_dict' !! k = None)
       ["keytype"; "scheme"; "keyval"] ∧
     Key.unrecognized_fields key = key_dict') ∧
    (signed_dict' = without ["expires"; "spec_version"; "version"; "_type"]
                      a_snapshot_record ∧
     Forall (λ k, is_Some (a_snapshot_record !! k) ∧ signed_dict' !! k = None)
       ["_type"; "version"; "spec_version"; "expires"]).
Proof.
  cbv zeta. eexists.
  eapply (@from_dict_pops_its_input Reference.runtime a_metadata_record _ _
            a_key_dict _ _ "snapshot" a_snapshot_record);
    vm_compute; reflexivity.
Defined.

(** ** Integrity records *)

Section Integrity.
Import IntegrityRecord.
Context (digest_of : Hasher).
Implicit Types (r : t) (content : bytes).

Lemma verify_hash_raises content entry e :
  verify_hash digest_of content entry = Raise e →
  e = LengthOrHashMismatchError.
Proof.
  unfold verify_hash. destruct (digest_of _ _); [|by intros [= <-]].
  case_bool_decide; [done|]. by intros [= <-].
Qed.

Lemma verify_hashes_mismatch content expected alg digest :
  (alg, digest) ∈ expected →
  digest_of alg content ≠ Ok digest →
  for_each (verify_hash digest_of content) expected
  = Raise LengthOrHashMismatchError.
Proof.
  intros Hin Hbad. induction expected as [|entry expected IH];
    [by apply elem_of_nil in Hin|]. simpl.
  destruct (verify_hash digest_of content entry) as [[]|e] eqn:Hentry.
  - simpl. apply elem_of_cons in Hin as [<-|Hin].
    + unfold verify_hash in Hentry. simpl in Hentry.
      destruct (digest_of alg content) as [observed|]; [|done].
      case_bool_decide; [|done]. by subst.
    + by rewrite IH.
  - by apply verify_hash_raises in Hentry as ->.
Qed.

Lemma verify_raises_one_kind r content e :
  verify_length_and_hashes digest_of r content = Raise e →
  e = LengthOrHashMismatchError.
Proof.
  unfold verify_length_and_hashes, verify_length, verify_hashes.
  destruct (length r) as [expected|]; simpl.
  - case_bool_decide; simpl; [|by intros [= <-]].
    destruct (hashes r) as [hs|]; [|done]. simpl.
    destruct (for_each _ hs) as [|e'] eqn:Hrun; [done|]. simpl.
    intros [= <-]. clear -Hrun. revert e' Hrun.
    induction hs as [|entry hs IH]; [done|]. simpl. intros e'.
    destruct (verify_hash _ _ entry) eqn:Hentry; simpl.
    + destruct (for_each _ hs); [done|]. simpl. intros [= <-]. by apply IH.
    + intros [= <-]. by apply verify_hash_raises in Hentry.
  - destruct (hashes r) as [hs|]; [|done]. simpl.
    destruct (for_each _ hs) as [|e'] eqn:Hrun; [done|]. simpl.
    intros [= <-]. clear -Hrun. revert e' Hrun.
    induction hs as [|entry hs IH]; [done|]. simpl. intros e'.
    destruct (verify_hash _ _ entry) eqn:Hentry; simpl.
    + destruct (for_each _ hs); [done|]. simpl. intros [= <-]. by apply IH.
    + intros [= <-]. by apply verify_hash_raises in Hentry.
Qed.
End Integrity.

(** C8. With neither a length nor hashes recorded, [verify_length_and_hashes]
    succeeds on any content.  A recorded length that is not the byte count of
    the content, a recorded digest that is not the digest of the content, and
    an algorithm label the hash collaborator rejects as unsupported or
    malformed each make it raise the length-or-hash mismatch error, and it
    raises no other error. *)
Theorem verify_length_and_hashes_one_error_kind
    (digest_of : IntegrityRecord.Hasher) (r : IntegrityRecord.t)
    (content : bytes) :
  let verified :=
    IntegrityRecord.verify_length_and_hashes digest_of r content in
  (IntegrityRecord.length r = None → IntegrityRecord.hashes r = None →
   verified = Ok ()) ∧
  (∀ expected, IntegrityRecord.length r = Some expected →
               expected ≠ Z.of_nat (length content) →
               verified = Raise LengthOrHashMismatchError) ∧
  (∀ expected alg digest observed,
     IntegrityRecord.hashes r = Some expected → (alg, digest) ∈ expected →
     digest_of alg content = Ok observed → observed ≠ digest →
     verified = Raise LengthOrHashMismatchError) ∧
  (∀ expected alg digest e,
     IntegrityRecord.hashes r = Some expected → (alg, digest) ∈ expected →
     digest_of alg content = Raise e →
     verified = Raise LengthOrHashMismatchError) ∧
  (∀ e, verified = Raise e → e = LengthOrHashMismatchError).
Proof.
  cbv zeta.
  assert (∀ expected alg digest,
            IntegrityRecord.hashes r = Some expected → (alg, digest) ∈ expected →
            digest_of alg content ≠ Ok digest →
            IntegrityRecord.verify_length_and_hashes digest_of r content
            = Raise LengthOrHashMismatchError) as Hhashes.
  { intros expected alg digest Hr Hin Hbad.
    unfold IntegrityRecord.verify_length_and_hashes,
      IntegrityRecord.verify_length, IntegrityRecord.verify_hashes.
    rewrite Hr, (verify_hashes_mismatch _ _ _ alg digest Hin Hbad).
    destruct (IntegrityRecord.length r); [|done]. by case_bool_decide. }
  repeat split.
  - intros Hlength Hhash.
    unfold IntegrityRecord.verify_length_and_hashes,
      IntegrityRecord.verify_length, IntegrityRecord.verify_hashes.
    by rewrite Hlength, Hhash.
  - intros expected Hlength Hne.
    unfold IntegrityRecord.verify_length_and_hashes,
      IntegrityRecord.verify_length.
    rewrite Hlength. by rewrite bool_decide_false.
  - intros expected alg digest observed Hr Hin Hobserved Hne.
    apply (Hhashes expected alg digest Hr Hin). congruence.
  - intros expected alg digest e Hr Hin He.
    apply (Hhashes expected alg digest Hr Hin). congruence.
  - apply verify_raises_one_kind.
Qed.

(** The steps of [test_length_and_hash_validation]. *)
Example verify_length_and_hashes_runs :
  let verify r := IntegrityRecord.verify_length_and_hashes toy_digest r a_file in
  verify (a_record (Some 28) (Some [(VStr "sha256", "28")])) = Ok () ∧
  verify (a_record (Some 2345) (Some [(VStr "sha256", "28")]))
    = Raise LengthOrHashMismatchError ∧
  verify (a_record (Some 28) (Some [(VStr "sha256", "incorrecthash")]))
    = Raise LengthOrHashMismatchError ∧
  verify (a_record (Some 28) (Some [(VStr "unsupported-alg", "28")]))
    = Raise LengthOrHashMismatchError ∧
  verify (a_record (Some 28) (Some [(VInt 256, "28")]))
    = Raise LengthOrHashMismatchError ∧
  verify (a_record None None) = Ok ().
Proof. repeat split; vm_compute; reflexivity. Qed.

Lemma verify_length_and_hashes_one_error_kind_witness :
  IntegrityRecord.verify_length_and_hashes toy_digest (a_record None None) a_file
  = Ok () ∧
  IntegrityRecord.verify_length_and_hashes toy_digest
    (a_record (Some 2345) None) a_file
  = Raise LengthOrHashMismatchError.
Proof.
  split.
  - by apply (verify_length_and_hashes_one_error_kind toy_digest
                (a_record None None) a_file).
  - by apply (proj1 (proj2 (verify_length_and_hashes_one_error_kind toy_digest
                (a_record (Some 2345) None) a_file)) 2345).
Defined.


(** * Further properties of the module *)

(** ** Where [Metadata.from_dict] fails *)

Lemma is_str_false (s : string) (v : value) : v ≠ VStr s → is_str s v = false.
Proof.
  destruct v; simpl; try done. intros Hne.
  apply bool_decide_eq_false. congruence.
Qed.

(** X1. A record whose "signed" part names a type other than targets,
    snapshot, timestamp and root is refused with [ValueError], and nothing
    has been popped from the record by then. *)
Theorem from_dict_unknown_type_untouched `{Runtime} (metadata signed : dict)
    (_type : value) :
  metadata !! "signed" = Some (VDict signed) →
  signed !! "_type" = Some _type →
  Forall (λ known, _type ≠ VStr known)
    ["targets"; "snapshot"; "timestamp"; "root"] →
  Metadata.from_dict metadata = (metadata, Raise ValueError).
Proof.
  intros Hsigned Htype Hknown. rewrite !Forall_cons in Hknown.
  destruct Hknown as (H1 & H2 & H3 & H4 & _).
  unfold Metadata.from_dict, mbind, mutating_bind, getitem, pure. simpl.
  rewrite Hsigned. simpl. rewrite Htype. unfold Metadata.dispatch.
  by rewrite !is_str_false.
Qed.

Lemma from_dict_unknown_type_untouched_witness :
  @Metadata.from_dict Reference.runtime bad_metadata_record
  = (bad_metadata_record, Raise ValueError).
Proof.
  apply (@from_dict_unknown_type_untouched Reference.runtime
           bad_metadata_record {[ "_type" := VStr "bad-metadata" ]}
           (VStr "bad-metadata")); [reflexivity|reflexivity|].
  repeat constructor; discriminate.
Defined.

(** X2. Once the type is known and the signatures are decoded, the record
    has lost "signatures" and "signed" for good: when the payload then fails
    to decode, with whatever exception, [Metadata.from_dict] raises it and
    the record is left without the two entries. *)
Theorem from_dict_failed_payload_still_popped `{Runtime}
    (metadata signed : dict) (_type signatures : value)
    (cls : payload_class) (items : list value) (sigs : list Signature.t)
    (e : exn) :
  metadata !! "signed" = Some (VDict signed) →
  signed !! "_type" = Some _type →
  Metadata.dispatch _type = Ok cls →
  metadata !! "signatures" = Some signatures →
  iterate signatures = Ok items →
  for_each Signature.from_dict items = Ok sigs →
  (class_from_dict cls signed).2 = Raise e →
  Metadata.from_dict metadata
  = (delete "signed" (delete "signatures" metadata), Raise e).
Proof.
  intros Hsigned Htype Hcls Hsigs Hitems Hdecoded Hfail.
  unfold Metadata.from_dict, mbind, mutating_bind, getitem, pure, pop. simpl.
  rewrite Hsigned. simpl. rewrite Htype, Hcls, Hsigs, Hitems. simpl.
  rewrite Hdecoded. rewrite lookup_delete_ne by done. rewrite Hsigned.
  unfold from_value. simpl. by rewrite Hfail.
Qed.

Lemma from_dict_failed_payload_still_popped_witness :
  @Metadata.from_dict Reference.runtime version_0_record
  = ((∅ : dict), Raise ValueError).
Proof.
  rewrite (@from_dict_failed_payload_still_popped Reference.runtime
             version_0_record
             (<["version" := VInt 0]> a_snapshot_record) (VStr "snapshot")
             (VList [signature_record "k1" "aa"]) ClsSnapshot
             [signature_record "k1" "aa"]
             [{| Signature.keyid := "k1"; Signature.signature := "aa" |}]
             ValueError) by reflexivity.
  vm_compute. reflexivity.
Defined.

(** Read one entry of a dict that was put together by unions, inserts and
    deletes. *)
Ltac read_entry :=
  repeat (rewrite lookup_union || rewrite lookup_insert || rewrite lookup_delete
          || rewrite lookup_empty || rewrite lookup_singleton);
  repeat case_decide; simplify_eq; simpl; try done.





(** ** Roles and keys *)

Lemma as_str_list_str_list (ids : list string) :
  as_str_list (str_list ids) = Ok ids.
Proof.
  unfold as_str_list, str_list.
  induction ids as [|id ids IH]; [done|].
  change (for_each as_str (VStr <$> id :: ids))
    with (as_str (VStr id) ≫= λ b,
          for_each as_str (VStr <$> ids) ≫= λ bs, Ok (b :: bs)).
  by rewrite IH.
Qed.

Lemma size_list_to_set_le (l : list string) :
  (size (list_to_set l : gset string) ≤ length l)%nat.
Proof.
  induction l as [|x l IH]; [done|]. cbn [list_to_set length].
  rewrite size_union_alt, size_singleton.
  assert (size (list_to_set l ∖ {[x]} : gset string)
          ≤ size (list_to_set l : gset string))%nat
    by by apply subseteq_size, subseteq_difference_l.
  lia.
Qed.

Lemma size_list_to_set_NoDup (l : list string) :
  size (list_to_set l : gset string) = length l ↔ NoDup l.
Proof.
  split; [|apply size_list_to_set].
  induction l as [|x l IH]; [constructor|]. cbn [list_to_set length].
  intros Hsize.
  destruct (decide (x ∈ l)) as [Hin|Hout].
  - rewrite subseteq_union_1_L in Hsize
      by by apply singleton_subseteq_l, elem_of_list_to_set.
    pose proof (size_list_to_set_le l). lia.
  - constructor; [done|]. apply IH.
    rewrite size_union in Hsize
      by by apply disjoint_singleton_l; rewrite elem_of_list_to_set.
    rewrite size_singleton in Hsize. lia.
Qed.

Lemma role_from_dict_unfold (d : dict) (ids : list string)
    (threshold : value) :
  d !! "keyids" = Some (str_list ids) →
  d !! "threshold" = Some threshold →
  Role.from_dict d =
    (delete "threshold" (delete "keyids" d),
     if decide (NoDup ids) then
       Ok {| Role.keyids := list_to_set ids; Role.threshold := threshold;
             Role.unrecognized_fields :=
               delete "threshold" (delete "keyids" d) |}
     else Raise ValueError).
Proof.
  intros Hids Hthreshold.
  unfold Role.from_dict, mbind, mutating_bind, pop, self, pure.
  rewrite Hids, lookup_delete_ne, Hthreshold by done.
  unfold Role.init. rewrite as_str_list_str_list. simpl.
  destruct (decide (NoDup ids)) as [Hnodup|Hdup].
  - by rewrite bool_decide_false
      by (rewrite size_list_to_set_NoDup; by intros []).
  - by rewrite bool_decide_true by by rewrite size_list_to_set_NoDup.
Qed.

(** X4. [Role.from_dict] raises [ValueError] exactly when the "keyids" list
    of the record names a keyid twice; a role that is built holds each keyid
    of the list once, as many as the list is long, and the threshold of the
    record. *)
Theorem role_from_dict_needs_distinct_keyids (d : dict) (ids : list string)
    (threshold : value) :
  d !! "keyids" = Some (str_list ids) →
  d !! "threshold" = Some threshold →
  ((Role.from_dict d).2 = Raise ValueError ↔ ¬ NoDup ids) ∧
  (∀ r, (Role.from_dict d).2 = Ok r →
        NoDup ids ∧ (∀ id, id ∈ Role.keyids r ↔ id ∈ ids) ∧
        size (Role.keyids r) = length ids ∧ Role.threshold r = threshold).
Proof.
  intros Hids Hthreshold. rewrite (role_from_dict_unfold d ids threshold) by done.
  simpl. destruct (decide (NoDup ids)) as [Hnodup|Hdup].
  - split; [by split|]. intros r [= <-]. simpl.
    split; [done|]. split; [|split; [|done]].
    + intros id. apply elem_of_list_to_set.
    + by apply size_list_to_set.
  - split; [by split|]. by intros r.
Qed.

Lemma role_from_dict_needs_distinct_keyids_witness :
  (Role.from_dict repeated_keyids_record).2 = Raise ValueError.
Proof.
  apply (proj2 (proj1 (role_from_dict_needs_distinct_keyids
                         repeated_keyids_record ["k1"; "k1"] (VInt 1)
                         eq_refl eq_refl))).
  intros Hnodup. apply NoDup_cons in Hnodup as [Hnew _].
  apply Hnew, list_elem_of_here.
Defined.

Lemma key_from_dict_public (d d' : dict) (key : Key.t) :
  Key.from_dict d = (d', Ok key) →
  truthy (default VNone (Key.keyval key !! "public")) = true.
Proof.
  unfold Key.from_dict. intros Hrun. run_inv Hrun. unfold Key.init in Hrun.
  match goal with
  | H : dict_receiver ?v ≫= _ = Ok _ |- _ => destruct v; try done; simpl in H
  end.
  destruct (truthy _) eqn:Hpublic; [|done]. by injection Hrun as <-.
Qed.

Lemma role_from_dict_NoDup (d d' : dict) (r : Role.t) :
  Role.from_dict d = (d', Ok r) →
  ∃ ids, d !! "keyids" = Some (str_list ids) ∧ NoDup ids ∧
         Role.keyids r = list_to_set ids.
Proof.
  intros Hrun.
  pose proof (role_from_dict_inv _ _ _ Hrun)
    as (_ & _ & Hthreshold & ids & Hids & Hset).
  exists ids. split; [done|]. split; [|done].
  rewrite (role_from_dict_unfold d ids _ Hids Hthreshold) in Hrun.
  by destruct (decide (NoDup ids)).
Qed.

Lemma for_items_dom {A B} (f : A → result B) (m : gmap string A)
    (m' : gmap string B) :
  for_items f m = Ok m' → dom m' = dom m.
Proof.
  intros Hrun. apply set_eq. intros k. rewrite !elem_of_dom.
  pose proof (for_items_lookup f m m' k Hrun) as Hk.
  inversion Hk; split; intros [? ?]; by eauto.
Qed.

(** X5. A root that [Root.from_dict] builds has a key under exactly the
    keyids of the "keys" of the record and a role under exactly the names of
    its "roles"; every key has a truthy "public" value, and every role holds
    the keyids of its record, which are distinct. *)
Theorem root_from_dict_keeps_ids `{Runtime} (d d' keys roles : dict)
    (r : Root.t) :
  Root.from_dict d = (d', Ok r) →
  d !! "keys" = Some (VDict keys) →
  d !! "roles" = Some (VDict roles) →
  dom (Root.keys r) = dom keys ∧
  dom (Root.roles r) = dom roles ∧
  (∀ keyid key, Root.keys r !! keyid = Some key →
     truthy (default VNone (Key.keyval key !! "public")) = true) ∧
  (∀ name role, Root.roles r !! name = Some role →
     ∃ record ids, roles !! name = Some (VDict record) ∧
                   record !! "keyids" = Some (str_list ids) ∧ NoDup ids ∧
                   ∀ id, id ∈ Role.keyids role ↔ id ∈ ids).
Proof.
  intros (_ & _ & _ & _ & _ & _ & _ & keys0 & roles0 & Hkeys0 & Hkeys
          & Hroles0 & Hroles)%root_from_dict_inv Hk Hr.
  simplify_eq. repeat split.
  - by apply for_items_dom in Hkeys.
  - by apply for_items_dom in Hroles.
  - intros keyid key Hkey.
    pose proof (for_items_lookup _ _ _ keyid Hkeys) as Hl.
    rewrite Hkey in Hl. inversion Hl as [a b Hab|]; subst.
    apply from_value_inv in Hab as (kd & kd' & -> & Hab).
    by apply key_from_dict_public in Hab.
  - intros name role Hrole.
    pose proof (for_items_lookup _ _ _ name Hroles) as Hl.
    rewrite Hrole in Hl. inversion Hl as [a b Hab Ha|]; subst.
    apply from_value_inv in Hab as (rd & rd' & -> & Hab).
    apply role_from_dict_NoDup in Hab as (ids & Hids & Hnodup & ->).
    exists rd, ids. repeat split; try done.
    + by apply elem_of_list_to_set.
    + by apply elem_of_list_to_set.
Qed.

Lemma root_from_dict_keeps_ids_witness :
  ∃ (d' : dict) (r : Root.t),
    @Root.from_dict Reference.runtime a_root_record = (d', Ok r) ∧
    dom (Root.keys r) = dom ({[ "k1" := a_key_record ]} : dict) ∧
    dom (Root.roles r) = dom ({[ "root" := a_role_record ]} : dict).
Proof.
  eexists _, _. split; [vm_compute; reflexivity|].
  split; [eapply proj1 | eapply proj1, proj2];
    eapply (@root_from_dict_keeps_ids Reference.runtime a_root_record);
    (vm_compute; reflexivity) || reflexivity.
Defined.

(** X6. A delegated role that decodes did not come with both a truthy
    "paths" and a truthy "path_hash_prefixes", and its encoding never holds
    the two entries together. *)
Theorem delegated_role_one_scoping `{Runtime} (d d' : dict)
    (r : DelegatedRole.t) :
  DelegatedRole.from_dict d = (d', Ok r) →
  ¬ (truthy (default VNone (d !! "paths")) = true ∧
     truthy (default VNone (d !! "path_hash_prefixes")) = true) ∧
  ¬ (is_Some (DelegatedRole.to_dict r !! "paths") ∧
     is_Some (DelegatedRole.to_dict r !! "path_hash_prefixes")).
Proof.
  intros (-> & Hu & Hname & Hthreshold & Hterminating & Hpaths & Hprefixes
          & Hone & ids & Hkeyids & Hset)%delegated_role_from_dict_inv.
  rewrite Hpaths, Hprefixes in Hone. split.
  - intros [Hp Hq]. by rewrite Hp, Hq in Hone.
  - unfold DelegatedRole.to_dict, Role.to_dict. rewrite Hu.
    destruct (truthy (DelegatedRole.paths r)) eqn:Hp;
      [|destruct (truthy (DelegatedRole.path_hash_prefixes r)) eqn:Hq];
      intros [[p Hp'] [q Hq']].
    + revert Hq'. read_entry.
    + revert Hp'. read_entry.
    + revert Hp'. read_entry.
Qed.

Lemma delegated_role_one_scoping_witness :
  ∃ (d' : dict) (r : DelegatedRole.t),
    DelegatedRole.from_dict a_delegated_role_record = (d', Ok r) ∧
    ¬ (truthy (default VNone (a_delegated_role_record !! "paths")) = true ∧
       truthy (default VNone (a_delegated_role_record !! "path_hash_prefixes"))
       = true) ∧
    ¬ (is_Some (@DelegatedRole.to_dict Reference.runtime r !! "paths") ∧
       is_Some (@DelegatedRole.to_dict Reference.runtime r
                  !! "path_hash_prefixes")).
Proof.
  eexists _, _. split; [vm_compute; reflexivity|].
  eapply (@delegated_role_one_scoping Reference.runtime
            a_delegated_role_record).
  vm_compute. reflexivity.
Defined.

(** X7. A delegated role record whose "keyids" is a list of strings and
    which has a truthy "paths" and a truthy "path_hash_prefixes" is refused
    with [ValueError]; by then the six entries the class reads are popped
    from the record. *)
Theorem delegated_role_both_scopings_refused (d : dict) (ids : list string)
    (name threshold terminating paths prefixes : value) :
  d !! "name" = Some name → d !! "keyids" = Some (str_list ids) →
  d !! "threshold" = Some threshold → d !! "terminating" = Some terminating →
  d !! "paths" = Some paths → d !! "path_hash_prefixes" = Some prefixes →
  truthy paths = true → truthy prefixes = true →
  DelegatedRole.from_dict d =
    (without ["path_hash_prefixes"; "paths"; "terminating"; "threshold";
              "keyids"; "name"] d, Raise ValueError).
Proof.
  intros Hname Hkeyids Hthreshold Hterminating Hpaths Hprefixes Hp Hq.
  unfold DelegatedRole.from_dict, mbind, mutating_bind, pop, pop_or_None,
    self, pure.
  rewrite Hname. rewrite lookup_delete_ne, Hkeyids by done.
  rewrite !lookup_delete_ne, Hthreshold by done.
  rewrite !lookup_delete_ne, Hterminating by done.
  rewrite !lookup_delete_ne, Hpaths by done.
  rewrite !lookup_delete_ne, Hprefixes by done.
  unfold DelegatedRole.init, Role.init. rewrite as_str_list_str_list. simpl.
  case_bool_decide; simpl; [done|]. by rewrite Hp, Hq.
Qed.

Lemma delegated_role_both_scopings_refused_witness :
  DelegatedRole.from_dict
    (<["path_hash_prefixes" := VList [VStr "h1"]]> a_delegated_role_record)
  = ((∅ : dict), Raise ValueError).
Proof.
  rewrite (delegated_role_both_scopings_refused
             (<["path_hash_prefixes" := VList [VStr "h1"]]>
                a_delegated_role_record)
             ["k1"] (VStr "role1") (VInt 1) (VBool false)
             (VList [VStr "fn1"; VStr "fn2"]) (VList [VStr "h1"]))
    by reflexivity.
  vm_compute. reflexivity.
Defined.

(** X8. [Key.from_dict] on a record without "keytype", "scheme" or "keyval"
    raises [KeyError]; the record then still has every entry under another
    name than these three (the ones read before the missing one are
    popped). *)
Theorem key_from_dict_missing_key (d : dict) (k : string) :
  k ∈ ["keytype"; "scheme"; "keyval"] →
  d !! k = None →
  (Key.from_dict d).2 = Raise KeyError ∧
  (Key.from_dict d).1 !! k = None ∧
  ∀ other, other ∉ ["keytype"; "scheme"; "keyval"] →
           (Key.from_dict d).1 !! other = d !! other.
Proof.
  intros Hk Hnone.
  unfold Key.from_dict, mbind, mutating_bind, pop, self, pure.
  destruct (d !! "keytype") as [keytype|] eqn:H1;
    [rewrite lookup_delete_ne by done;
     destruct (d !! "scheme") as [scheme|] eqn:H2;
     [rewrite !lookup_delete_ne by done;
      destruct (d !! "keyval") as [keyval|] eqn:H3|]|].
  - exfalso. rewrite !elem_of_cons, elem_of_nil in Hk.
    destruct Hk as [->|[->|[->|[]]]]; congruence.
  - simpl. repeat split.
    + rewrite !lookup_delete. repeat case_decide; done.
    + intros other Hother. rewrite !lookup_delete.
      repeat case_decide; try done; subst; destruct Hother;
        rewrite !elem_of_cons; auto.
  - simpl. repeat split.
    + rewrite !lookup_delete. repeat case_decide; done.
    + intros other Hother. rewrite !lookup_delete.
      repeat case_decide; try done; subst; destruct Hother;
        rewrite !elem_of_cons; auto.
  - simpl. by repeat split.
Qed.

Lemma key_from_dict_missing_key_witness :
  (Key.from_dict (delete "scheme" a_key_dict)).2 = Raise KeyError ∧
  (Key.from_dict (delete "scheme" a_key_dict)).1 !! "scheme" = None ∧
  ∀ other, other ∉ ["keytype"; "scheme"; "keyval"] →
           (Key.from_dict (delete "scheme" a_key_dict)).1 !! other
           = delete "scheme" a_key_dict !! other.
Proof.
  apply (key_from_dict_missing_key (delete "scheme" a_key_dict) "scheme");
    [|reflexivity].
  apply list_elem_of_further, list_elem_of_here.
Defined.

(** X9. [DelegatedRole.from_dict] on a record without "name", "keyids",
    "threshold" or "terminating" raises [KeyError], and so does
    [Role.from_dict] on a record without "keyids" or "threshold". *)
Theorem role_from_dict_missing_key (d : dict) (k : string) :
  k ∈ ["name"; "keyids"; "threshold"; "terminating"] →
  d !! k = None →
  (DelegatedRole.from_dict d).2 = Raise KeyError ∧
  (k ∈ ["keyids"; "threshold"] → (Role.from_dict d).2 = Raise KeyError).
Proof.
  intros Hk Hnone. split.
  - unfold DelegatedRole.from_dict, mbind, mutating_bind, pop, self, pure.
    destruct (d !! "name") eqn:H1; [|done].
    rewrite lookup_delete_ne by done.
    destruct (d !! "keyids") eqn:H2; [|done].
    rewrite !lookup_delete_ne by done.
    destruct (d !! "threshold") eqn:H3; [|done].
    rewrite !lookup_delete_ne by done.
    destruct (d !! "terminating") eqn:H4; [|done].
    exfalso. rewrite !elem_of_cons, elem_of_nil in Hk.
    destruct Hk as [->|[->|[->|[->|[]]]]]; congruence.
  - intros Hk'.
    unfold Role.from_dict, mbind, mutating_bind, pop, self, pure.
    destruct (d !! "keyids") eqn:H2; [|done].
    rewrite !lookup_delete_ne by done.
    destruct (d !! "threshold") eqn:H3; [|done].
    exfalso. rewrite !elem_of_cons, elem_of_nil in Hk'.
    destruct Hk' as [->|[->|[]]]; congruence.
Qed.

Lemma role_from_dict_missing_key_witness :
  (DelegatedRole.from_dict (delete "keyids" a_delegated_role_record)).2
  = Raise KeyError ∧
  (Role.from_dict (delete "keyids" a_delegated_role_record)).2
  = Raise KeyError.
Proof.
  destruct (role_from_dict_missing_key
              (delete "keyids" a_delegated_role_record) "keyids")
    as [Hdelegated Hrole];
    [apply list_elem_of_further, list_elem_of_here | reflexivity |].
  split; [exact Hdelegated|]. apply Hrole, list_elem_of_here.
Defined.

(** ** The key store of a root *)

Lemma with_keyids_same (keyinfo : Role.t) :
  Root.with_keyids keyinfo (Role.keyids keyinfo) = keyinfo.
Proof. by destruct keyinfo. Qed.

Lemma root_eq (r r' : Root.t) :
  Root.signed r = Root.signed r' →
  Root.consistent_snapshot r = Root.consistent_snapshot r' →
  Root.keys r = Root.keys r' → Root.roles r = Root.roles r' → r = r'.
Proof. destruct r, r'. simpl. by intros -> -> -> ->. Qed.

(** X10. For a role the root has, [add_key] succeeds, leaves the keyid in
    the role and the key in the store under it, and a second [add_key] with
    the same arguments changes nothing more. *)
Theorem add_key_twice_is_add_key_once (r : Root.t) (role keyid : string)
    (key_metadata : Key.t) :
  is_Some (Root.roles r !! role) →
  let once := Root.add_key role keyid key_metadata r in
  once.2 = Ok () ∧
  Root.add_key role keyid key_metadata once.1 = once ∧
  (∃ keyinfo, Root.roles once.1 !! role = Some keyinfo ∧
              keyid ∈ Role.keyids keyinfo) ∧
  Root.keys once.1 !! keyid = Some key_metadata.
Proof.
  intros [keyinfo Hrole]. cbv zeta.
  rewrite (add_key_known_role _ _ _ _ _ Hrole). simpl.
  split; [done|]. split; [|split].
  - erewrite add_key_known_role; [|simpl; apply lookup_insert_eq].
    f_equal. apply root_eq; simpl; try done.
    + by rewrite insert_insert_eq.
    + rewrite insert_insert_eq. unfold Root.with_keyids. simpl.
      assert ({[keyid]} ∪ ({[keyid]} ∪ Role.keyids keyinfo)
              = {[keyid]} ∪ Role.keyids keyinfo) as ->; [|done].
      apply set_eq. intros x. rewrite !elem_of_union. tauto.
  - eexists. split; [apply lookup_insert_eq|]. simpl.
    apply elem_of_union_l. by apply elem_of_singleton.
  - apply lookup_insert_eq.
Qed.

Lemma add_key_twice_is_add_key_once_witness :
  let once := Root.add_key "root" "k3" a_key a_root in
  once.2 = Ok () ∧
  Root.add_key "root" "k3" a_key once.1 = once ∧
  (∃ keyinfo, Root.roles once.1 !! "root" = Some keyinfo ∧
              "k3" ∈ Role.keyids keyinfo) ∧
  Root.keys once.1 !! "k3" = Some a_key.
Proof.
  exact (add_key_twice_is_add_key_once a_root "root" "k3" a_key
           (ex_intro _ _ eq_refl)).
Defined.

(** X11. [remove_key] undoes [add_key]: when the key store has no key under
    the keyid and no role names it, adding the key to a role and removing
    it from that role again gives back the root as it was. *)
Theorem add_key_then_remove_key_restores (r : Root.t) (role keyid : string)
    (key_metadata : Key.t) (keyinfo : Role.t) :
  Root.roles r !! role = Some keyinfo →
  Root.keys r !! keyid = None →
  (∀ name other, Root.roles r !! name = Some other →
                 keyid ∉ Role.keyids other) →
  Root.remove_key role keyid (Root.add_key role keyid key_metadata r).1
  = (r, Ok ()).
Proof.
  intros Hrole Hkey Hunused.
  rewrite (add_key_known_role _ _ _ _ _ Hrole). simpl.
  erewrite remove_key_unfold; [|simpl; apply lookup_insert_eq].
  rewrite bool_decide_true
    by (simpl; apply elem_of_union_l; by apply elem_of_singleton).
  cbv zeta. simpl.
  assert (({[keyid]} ∪ Role.keyids keyinfo) ∖ {[keyid]} = Role.keyids keyinfo)
    as Hset.
  { apply set_eq. intros x.
    rewrite elem_of_difference, elem_of_union, !elem_of_singleton.
    split; [by intros [[->|?] ?]|]. intros Hx. split; [by right|].
    intros ->. by apply (Hunused role keyinfo). }
  assert (Root.with_keyids
            (Root.with_keyids keyinfo ({[keyid]} ∪ Role.keyids keyinfo))
            (({[keyid]} ∪ Role.keyids keyinfo) ∖ {[keyid]}) = keyinfo) as Hinfo.
  { unfold Root.with_keyids. simpl. rewrite Hset. by destruct keyinfo. }
  rewrite Hinfo, insert_insert_eq, (insert_id _ _ _ Hrole).
  match goal with
  | |- context [Root.still_used keyid ?r1] =>
      assert (Root.still_used keyid r1 = false) as ->
        by (apply still_used_false; simpl; apply Hunused)
  end.
  rewrite lookup_insert_eq. f_equal. apply root_eq; simpl; try done.
  by rewrite delete_insert_eq, delete_id.
Qed.

Lemma add_key_then_remove_key_restores_witness :
  Root.remove_key "root" "k3" (Root.add_key "root" "k3" a_key a_root).1
  = (a_root, Ok ()).
Proof.
  apply (add_key_then_remove_key_restores a_root "root" "k3" a_key
           (a_role ["k1"; "k2"])); [reflexivity | reflexivity |].
  apply still_used_false. vm_compute. reflexivity.
Defined.

Lemma roles_after_keyids (r : Root.t) (role name : string)
    (keyinfo other : Role.t) (keyids : gset string) :
  Root.roles r !! role = Some keyinfo →
  <[role := Root.with_keyids keyinfo keyids]> (Root.roles r) !! name
  = Some other →
  (name = role ∧ Role.keyids other = keyids) ∨
  (name ≠ role ∧ Root.roles r !! name = Some other).
Proof.
  intros Hrole. rewrite lookup_insert. case_decide as Hname.
  - intros [= <-]. by left.
  - intros Hother. by right.
Qed.

Lemma a_root_keys_present : keys_present a_root.
Proof.
  intros name keyinfo keyid Hrole Hin.
  assert (keyid = "k1" ∨ keyid = "k2") as [-> | ->]; [|by eexists..].
  unfold a_root in Hrole. cbn [Root.roles] in Hrole.
  rewrite lookup_insert in Hrole. case_decide; simplify_eq.
  - unfold a_role in Hin. cbn [Role.keyids] in Hin.
    apply elem_of_list_to_set in Hin.
    rewrite !elem_of_cons, elem_of_nil in Hin. tauto.
  - rewrite lookup_singleton in Hrole. case_decide; simplify_eq.
    unfold a_role in Hin. cbn [Role.keyids] in Hin.
    apply elem_of_list_to_set in Hin.
    rewrite !elem_of_cons, elem_of_nil in Hin. tauto.
Qed.

(** X12. In a root where every keyid that a role names has its key in the
    store, this is still so after [add_key] and after [remove_key], whatever
    their outcome; and there [remove_key] succeeds exactly when the role
    exists and names the keyid. *)
Theorem add_key_and_remove_key_keep_keys_present (r : Root.t)
    (role keyid : string) (key_metadata : Key.t) :
  keys_present r →
  keys_present (Root.add_key role keyid key_metadata r).1 ∧
  keys_present (Root.remove_key role keyid r).1 ∧
  ((Root.remove_key role keyid r).2 = Ok () ↔
   ∃ keyinfo, Root.roles r !! role = Some keyinfo ∧
              keyid ∈ Role.keyids keyinfo).
Proof.
  intros Hpresent.
  destruct (Root.roles r !! role) as [keyinfo|] eqn:Hrole.
  - split; [|split].
    + rewrite (add_key_known_role _ _ _ _ _ Hrole). simpl.
      intros name other k Hother Hk. simpl in *.
      rewrite lookup_insert. case_decide; [done|].
      apply (roles_after_keyids _ _ _ _ _ _ Hrole) in Hother
        as [[-> Hids]|[Hne Hother]].
      * rewrite Hids in Hk. apply elem_of_union in Hk as [Hk|Hk].
        -- apply elem_of_singleton in Hk. congruence.
        -- by apply (Hpresent role keyinfo).
      * by apply (Hpresent name other).
    + rewrite (remove_key_unfold _ _ _ _ Hrole).
      case_bool_decide as Hin; [|done]. cbv zeta.
      destruct (Root.still_used _ _) eqn:Hused; simpl.
      * intros name other k Hother Hk. simpl in *.
        apply (roles_after_keyids _ _ _ _ _ _ Hrole) in Hother
          as [[-> Hids]|[Hne Hother]].
        -- rewrite Hids in Hk. apply elem_of_difference in Hk as [Hk _].
           by apply (Hpresent role keyinfo).
        -- by apply (Hpresent name other).
      * destruct (Hpresent role keyinfo keyid Hrole Hin) as [key Hkey].
        rewrite Hkey. simpl.
        intros name other k Hother Hk. simpl in *.
        pose proof (proj1 (still_used_false _ _) Hused name other Hother)
          as Hfree.
        rewrite lookup_delete_ne by congruence.
        apply (roles_after_keyids _ _ _ _ _ _ Hrole) in Hother
          as [[-> Hids]|[Hne Hother]].
        -- rewrite Hids in Hk. apply elem_of_difference in Hk as [Hk _].
           by apply (Hpresent role keyinfo).
        -- by apply (Hpresent name other).
    + rewrite (remove_key_unfold _ _ _ _ Hrole).
      case_bool_decide as Hin.
      * cbv zeta. split; [by eauto|]. intros _.
        destruct (Root.still_used _ _); [done|].
        by destruct (Hpresent role keyinfo keyid Hrole Hin) as [key ->].
      * split; [done|]. by intros (? & [= <-] & ?).
  - assert (Root.remove_key role keyid r = (r, Raise KeyError)) as ->.
    { unfold Root.remove_key, Root.keyids_remove, Root.role_of, mbind,
        mutating_bind. by rewrite Hrole. }
    assert (Root.add_key role keyid key_metadata r = (r, Raise KeyError)) as ->.
    { unfold Root.add_key, Root.keyids_add, Root.role_of, mbind,
        mutating_bind. by rewrite Hrole. }
    simpl. repeat split; try done. by intros (? & ? & ?).
Qed.

Lemma add_key_and_remove_key_keep_keys_present_witness :
  keys_present (Root.add_key "root" "k1" a_key a_root).1 ∧
  keys_present (Root.remove_key "root" "k1" a_root).1 ∧
  ((Root.remove_key "root" "k1" a_root).2 = Ok () ↔
   ∃ keyinfo, Root.roles a_root !! "root" = Some keyinfo ∧
              "k1" ∈ Role.keyids keyinfo).
Proof.
  exact (add_key_and_remove_key_keep_keys_present a_root "root" "k1" a_key
           a_root_keys_present).
Defined.

(** ** The update methods *)

Lemma metafile_entry_lookup (version length hashes : value) (k : string) :
  metafile_entry version length hashes !! k =
    if decide (k = "version") then Some version
    else if decide (k = "length") then
      (if is_None length then None else Some length)
    else if decide (k = "hashes") then
      (if is_None hashes then None else Some hashes)
    else None.
Proof.
  unfold metafile_entry. destruct (is_None length), (is_None hashes);
    read_entry.
Qed.

(** X13. [Timestamp.update] on a [meta] dict succeeds and replaces the
    entry of "snapshot.json" by a fresh one: the version, the length if one
    is given, the hashes if given, and nothing of the entry that was there;
    the encoding changes in "meta" alone. *)
Theorem timestamp_update_replaces_the_entry `{Runtime} (s : Timestamp.t)
    (m : dict) (version length hashes : value) :
  Timestamp.meta s = VDict m →
  let entry := metafile_entry version length hashes in
  let s' := {| Timestamp.signed := Timestamp.signed s;
               Timestamp.meta := VDict (<["snapshot.json" := VDict entry]> m) |} in
  Timestamp.update version length hashes s = (s', Ok ()) ∧
  entry !! "version" = Some version ∧
  entry !! "length" = (if is_None length then None else Some length) ∧
  entry !! "hashes" = (if is_None hashes then None else Some hashes) ∧
  dom entry ⊆ {[ "version"; "length"; "hashes" ]} ∧
  Timestamp.to_dict s'
  = <["meta" := Timestamp.meta s']> (Timestamp.to_dict s).
Proof.
  intros Hmeta. cbv zeta. split; [|split; [|split; [|split; [|split]]]].
  - unfold Timestamp.update, Timestamp.assign_meta, mbind, mutating_bind,
      mret, mutating_ret.
    rewrite Hmeta. simpl.
    destruct (is_None length) eqn:Hl, (is_None hashes) eqn:Hh;
      unfold metafile_entry; rewrite Hl, Hh; simpl; unfold setitem2; simpl;
      rewrite ?lookup_insert_eq; simpl; rewrite ?lookup_insert_eq; simpl;
      by rewrite ?insert_insert_eq.
  - by rewrite metafile_entry_lookup.
  - by rewrite metafile_entry_lookup.
  - by rewrite metafile_entry_lookup.
  - intros k [v Hk]%elem_of_dom. rewrite metafile_entry_lookup in Hk.
    rewrite !elem_of_union, !elem_of_singleton.
    repeat case_decide; try done; auto.
  - unfold Timestamp.to_dict. simpl.
    by rewrite insert_union_l, insert_singleton_eq.
Qed.

Lemma timestamp_update_replaces_the_entry_witness :
  Timestamp.update (VInt 2) VNone (VDict {[ "sha256" := VStr "ab" ]})
    a_timestamp
  = ({| Timestamp.signed := expiring (at_midnight 2030 1 1);
        Timestamp.meta :=
          VDict {[ "snapshot.json" :=
                     VDict {[ "version" := VInt 2;
                              "hashes" := VDict {[ "sha256" := VStr "ab" ]} ]} ]}
     |}, Ok ()).
Proof.
  pose proof (@timestamp_update_replaces_the_entry Reference.runtime
                a_timestamp _ (VInt 2) VNone
                (VDict {[ "sha256" := VStr "ab" ]}) eq_refl) as Hupdate.
  cbv zeta in Hupdate. destruct Hupdate as [Hupdate _].
  rewrite Hupdate. vm_compute. reflexivity.
Defined.

(** X14. [Snapshot.update] on a [meta] dict succeeds and replaces the entry
    of "<rolename>.json" by a fresh one: the version, the length if given,
    the hashes if given; the entries of the other files stay, and the
    encoding changes in "meta" alone. *)
Theorem snapshot_update_replaces_the_entry `{Runtime} (s : Snapshot.t)
    (m : dict) (rolename : string) (version length hashes : value) :
  Snapshot.meta s = VDict m →
  let entry := metafile_entry version length hashes in
  let s' := {| Snapshot.signed := Snapshot.signed s;
               Snapshot.meta :=
                 VDict (<[rolename +:+ ".json" := VDict entry]> m) |} in
  Snapshot.update rolename version length hashes s = (s', Ok ()) ∧
  entry !! "version" = Some version ∧
  entry !! "length" = (if is_None length then None else Some length) ∧
  entry !! "hashes" = (if is_None hashes then None else Some hashes) ∧
  dom entry ⊆ {[ "version"; "length"; "hashes" ]} ∧
  (∀ other, other ≠ rolename +:+ ".json" →
            <[rolename +:+ ".json" := VDict entry]> m !! other = m !! other) ∧
  Snapshot.to_dict s' = <["meta" := Snapshot.meta s']> (Snapshot.to_dict s).
Proof.
  intros Hmeta. cbv zeta.
  split; [|split; [|split; [|split; [|split; [|split]]]]].
  - unfold Snapshot.update, Snapshot.assign_meta, mbind, mutating_bind,
      mret, mutating_ret.
    rewrite Hmeta. simpl.
    destruct (is_None length) eqn:Hl, (is_None hashes) eqn:Hh;
      unfold metafile_entry; rewrite Hl, Hh; simpl; unfold setitem2; simpl;
      rewrite ?lookup_insert_eq; simpl; rewrite ?lookup_insert_eq; simpl;
      by rewrite ?insert_insert_eq.
  - by rewrite metafile_entry_lookup.
  - by rewrite metafile_entry_lookup.
  - by rewrite metafile_entry_lookup.
  - intros k [v Hk]%elem_of_dom. rewrite metafile_entry_lookup in Hk.
    rewrite !elem_of_union, !elem_of_singleton.
    repeat case_decide; try done; auto.
  - intros other Hother. by rewrite lookup_insert_ne.
  - unfold Snapshot.to_dict. simpl.
    by rewrite insert_union_l, insert_singleton_eq.
Qed.

Lemma snapshot_update_replaces_the_entry_witness :
  Snapshot.update "role1" (VInt 2) (VInt 123) VNone a_snapshot
  = ({| Snapshot.signed := expiring (at_midnight 2030 1 1);
        Snapshot.meta :=
          VDict {[ "targets.json" := VDict {[ "version" := VInt 1 ]};
                   "role1.json" :=
                     VDict {[ "version" := VInt 2; "length" := VInt 123 ]} ]}
     |}, Ok ()).
Proof.
  pose proof (@snapshot_update_replaces_the_entry Reference.runtime
                a_snapshot _ "role1" (VInt 2) (VInt 123) VNone eq_refl)
    as Hupdate.
  cbv zeta in Hupdate. destruct Hupdate as [Hupdate _].
  rewrite Hupdate. vm_compute. reflexivity.
Defined.

(** X15. [Targets.update] on a [targets] dict succeeds and stores the file
    info under the file name; the encoding changes in "targets" alone, and
    "delegations" is written as before. *)
Theorem targets_update_changes_one_entry `{Runtime} (s : Targets.t) (m : dict)
    (filename : string) (fileinfo : value) :
  Targets.targets s = VDict m →
  let s' := {| Targets.signed := Targets.signed s;
               Targets.targets := VDict (<[filename := fileinfo]> m);
               Targets.delegations := Targets.delegations s |} in
  Targets.update filename fileinfo s = (s', Ok ()) ∧
  Targets.to_dict s' = <["targets" := Targets.targets s']> (Targets.to_dict s) ∧
  Targets.to_dict s' !! "delegations" = Targets.to_dict s !! "delegations".
Proof.
  intros Htargets. cbv zeta. split; [|split].
  - unfold Targets.update. by rewrite Htargets.
  - unfold Targets.to_dict. simpl. destruct (Targets.delegations s).
    + by rewrite (insert_insert_ne _ "targets" "delegations"),
        !insert_insert_eq by done.
    + by rewrite insert_insert_eq.
  - unfold Targets.to_dict. simpl. destruct (Targets.delegations s).
    + by rewrite !lookup_insert_eq.
    + by rewrite !lookup_insert_ne by done.
Qed.

Lemma targets_update_changes_one_entry_witness :
  Targets.update "file2.txt" (VDict {[ "length" := VInt 39 ]}) a_targets
  = ({| Targets.signed := expiring (at_midnight 2030 1 1);
        Targets.targets :=
          VDict {[ "file1.txt" := VDict {[ "length" := VInt 31 ]};
                   "file2.txt" := VDict {[ "length" := VInt 39 ]} ]};
        Targets.delegations := None |}, Ok ()).
Proof.
  pose proof (@targets_update_changes_one_entry Reference.runtime
                a_targets _ "file2.txt" (VDict {[ "length" := VInt 39 ]})
                eq_refl) as Hupdate.
  cbv zeta in Hupdate. destruct Hupdate as [Hupdate _].
  rewrite Hupdate. vm_compute. reflexivity.
Defined.

(** ** Signatures of one key among others *)

Lemma verify_unfold (verify_signature : Verifier)
    (signed_serializer : SignedSerializer) (key : dict) (keyid : string)
    (md : Metadata.t) :
  key !! "keyid" = Some (VStr keyid) →
  Metadata.verify verify_signature key signed_serializer md =
    match signatures_for keyid md with
    | [] => Raise (Error NoSignature)
    | [sig] =>
        data ← signed_serializer (Metadata.signed md);
        verify_signature key (Signature.to_dict sig) data
    | _ => Raise (Error (ManySignatures (length (signatures_for keyid md))))
    end.
Proof.
  intros Hkey. unfold Metadata.verify. simpl. rewrite Hkey.
  unfold mbind at 1, result_bind at 1. by fold (signatures_for keyid md).
Qed.



(** X17. Appending the signature of one key does not change what [verify]
    returns or raises for a key with another keyid. *)
Theorem appended_signature_of_another_key_is_ignored
    (verify_signature : Verifier) (signed_serializer : SignedSerializer)
    (signer : Signer) (key : dict) (keyid : string) (md : Metadata.t)
    (data : bytes) (sig : Signature.t) :
  signed_serializer (Metadata.signed md) = Ok data →
  signer data = Ok sig →
  key !! "keyid" = Some (VStr keyid) →
  Signature.keyid sig ≠ keyid →
  Metadata.verify verify_signature key signed_serializer
    (Metadata.sign signer true signed_serializer md).1
  = Metadata.verify verify_signature key signed_serializer md.
Proof.
  intros Hdata Hsig Hkey Hne.
  rewrite (sign_ok _ signer true md data sig Hdata Hsig). simpl.
  rewrite !(verify_unfold _ _ _ _ _ Hkey).
  assert (signatures_for keyid
            {| Metadata.signed := Metadata.signed md;
               Metadata.signatures := Metadata.signatures md ++ [sig] |}
          = signatures_for keyid md) as ->; [|done].
  unfold signatures_for. simpl. rewrite filter_app, filter_cons, filter_nil.
  rewrite decide_False
    by (intros Hs; cbn in Hs; apply bool_decide_unpack in Hs; congruence).
  by rewrite app_nil_r.
Qed.

Lemma appended_signature_of_another_key_is_ignored_witness :
  Metadata.verify Toy.verify_signature (Toy.public_key "k1" "toy" "s1")
    Toy.serializer
    (Metadata.sign (Toy.signer "k2" "s2") true Toy.serializer signed_by_k1).1
  = Metadata.verify Toy.verify_signature (Toy.public_key "k1" "toy" "s1")
      Toy.serializer signed_by_k1.
Proof.
  apply (appended_signature_of_another_key_is_ignored Toy.verify_signature
           Toy.serializer (Toy.signer "k2" "s2")
           (Toy.public_key "k1" "toy" "s1") "k1" signed_by_k1
           [Byte.x7b; Byte.x7d]
           {| Signature.keyid := "k2"; Signature.signature := "s2" |}
           eq_refl eq_refl eq_refl).
  discriminate.
Defined.

(** X18. Signing with [append=False] drops the signatures of every other
    key: [verify] with a key of another keyid then raises
    [tuf.exceptions.Error] for no signature, whatever was signed before. *)
Theorem replacing_leaves_no_signature_of_another_key
    (verify_signature : Verifier) (signed_serializer : SignedSerializer)
    (signer : Signer) (key : dict) (keyid : string) (md : Metadata.t)
    (data : bytes) (sig : Signature.t) :
  signed_serializer (Metadata.signed md) = Ok data →
  signer data = Ok sig →
  key !! "keyid" = Some (VStr keyid) →
  Signature.keyid sig ≠ keyid →
  Metadata.verify verify_signature key signed_serializer
    (Metadata.sign signer false signed_serializer md).1
  = Raise (Error NoSignature).
Proof.
  intros Hdata Hsig Hkey Hne.
  rewrite (sign_ok _ signer false md data sig Hdata Hsig). simpl.
  rewrite (verify_unfold _ _ _ _ _ Hkey).
  unfold signatures_for. simpl. rewrite filter_cons, filter_nil.
  by rewrite decide_False
    by (intros Hs; cbn in Hs; apply bool_decide_unpack in Hs; congruence).
Qed.

Lemma replacing_leaves_no_signature_of_another_key_witness :
  Metadata.verify Toy.verify_signature (Toy.public_key "k1" "toy" "s1")
    Toy.serializer
    (Metadata.sign (Toy.signer "k2" "s2") false Toy.serializer signed_by_k1).1
  = Raise (Error NoSignature).
Proof.
  apply (replacing_leaves_no_signature_of_another_key Toy.verify_signature
           Toy.serializer (Toy.signer "k2" "s2")
           (Toy.public_key "k1" "toy" "s1") "k1" signed_by_k1
           [Byte.x7b; Byte.x7d]
           {| Signature.keyid := "k2"; Signature.signature := "s2" |}
           eq_refl eq_refl eq_refl).
  discriminate.
Defined.

(** ** The whole record, there and back *)

Lemma signature_round_trip (v : value) (sig : Signature.t) :
  Signature.from_dict v = Ok sig →
  signature_record_plain v →
  VDict (Signature.to_dict sig) = v.
Proof.
  unfold Signature.from_dict. destruct v as [| | | | |d]; try done. simpl.
  destruct (d !! "keyid") as [k|] eqn:Hk; [|done]. simpl.
  destruct (d !! "sig") as [s|] eqn:Hs; [|done]. simpl.
  destruct k as [| | |k| |]; try done. destruct s as [| | |s| |]; try done.
  simpl. intros [= <-] Hplain. f_equal. unfold Signature.to_dict. simpl.
  apply map_eq. intros i. read_entry.
  symmetry. apply not_elem_of_dom. intros Hi%(Hplain d eq_refl).
  rewrite elem_of_union, !elem_of_singleton in Hi. by destruct Hi.
Qed.

(** X19. A whole metadata record comes back from [Metadata.to_dict] after
    [Metadata.from_dict]: when the record has the entries "signatures" and
    "signed" and no other, each signature record has "keyid" and "sig" and
    no other entry, the signed part is a plain record of its type, and its
    "expires" string is the one that [isoformat() + "Z"] writes for the
    time it is parsed to. *)
Theorem whole_record_comes_back `{Runtime}
    (metadata metadata' signed : dict) (signatures : list value)
    (md : Metadata.t) (cls : payload_class) :
  expires_as_written signed →
  Metadata.from_dict metadata = (metadata', Ok md) →
  dom metadata = {[ "signatures"; "signed" ]} →
  metadata !! "signatures" = Some (VList signatures) →
  Forall signature_record_plain signatures →
  metadata !! "signed" = Some (VDict signed) →
  Metadata.dispatch (default VNone (signed !! "_type")) = Ok cls →
  record_plain cls signed →
  Metadata.to_dict md = metadata.
Proof.
  intros Hexact Hrun Hdom Hsigs Hplain Hsigned Hcls Hrecord.
  pose proof (signed_part_comes_back _ _ _ _ _ Hexact Hrun Hsigned Hcls Hrecord)
    as Hpayload.
  unfold Metadata.from_dict in Hrun. run_inv Hrun. undelete. simplify_eq.
  simpl in *.
  match goal with
  | Hs : for_each Signature.from_dict _ = Ok _ |- _ =>
      apply (for_each_back _ (λ sig, VDict (Signature.to_dict sig))) in Hs
  end.
  2:{ intros a b Hin Hab. apply signature_round_trip; [done|].
      by apply (proj1 (Forall_forall _ _) Hplain). }
  unfold Metadata.to_dict. simpl.
  match goal with Hs : _ <$> _ = signatures |- _ => rewrite Hs end.
  apply map_eq. intros i. read_entry.
  symmetry. apply not_elem_of_dom. rewrite Hdom.
  rewrite elem_of_union, !elem_of_singleton. by intros [?|?].
Qed.

Lemma whole_record_comes_back_witness :
  ∃ md : Metadata.t,
    @Metadata.from_dict Reference.runtime a_metadata_record
    = ((∅ : dict), Ok md) ∧
    @Metadata.to_dict Reference.runtime md = a_metadata_record.
Proof.
  eexists. split; [vm_compute; reflexivity|].
  eapply (@whole_record_comes_back Reference.runtime a_metadata_record _
            a_root_record [signature_record "k1" "aa"] _ ClsRoot).
  - exact a_root_record_expires_as_written.
  - vm_compute. reflexivity.
  - unfold a_metadata_record. by rewrite dom_insert_L, dom_singleton_L.
  - reflexivity.
  - constructor; [|constructor]. intros d [= <-].
    by rewrite dom_insert_L, dom_singleton_L.
  - reflexivity.
  - reflexivity.
  - exact a_root_record_plain.
Defined.

(** ** Encoding and decoding again *)

Lemma bind_run {S A B} (m : Mutating S A) (f : A → Mutating S B) (s s' : S)
    (a : A) :
  m s = (s', Ok a) → (m ≫= f) s = f a s'.
Proof. unfold mbind, mutating_bind. by intros ->. Qed.

Lemma pop_present (k : string) (d : dict) (v : value) :
  d !! k = Some v → pop k d = (delete k d, Ok v).
Proof. unfold pop. by intros ->. Qed.

Lemma pop_or_None_present (k : string) (d : dict) (v : value) :
  d !! k = Some v → pop_or_None k d = (delete k d, Ok v).
Proof. unfold pop_or_None. by intros ->. Qed.

Lemma pop_or_None_absent (k : string) (d : dict) :
  d !! k = None → pop_or_None k d = (d, Ok VNone).
Proof. unfold pop_or_None. by intros ->. Qed.

(** Read an entry, with what is known to be absent. *)
Ltac read_known :=
  repeat (rewrite lookup_union || rewrite lookup_insert || rewrite lookup_delete
          || rewrite lookup_empty || rewrite lookup_singleton);
  repeat case_decide; simplify_eq;
  repeat match goal with
         | H : ?d !! ?k = None |- context [?d !! ?k] => rewrite H
         end;
  simpl; try done.

(** One [pop] of an entry that is there. *)
Ltac pop_step :=
  erewrite bind_run; [|apply pop_present; read_known].

(** The popped dict is the unrecognized fields again. *)
Ltac left_over :=
  let i := fresh "i" in
  apply map_eq; intros i;
  repeat (rewrite lookup_union || rewrite lookup_insert || rewrite lookup_delete
          || rewrite lookup_empty || rewrite lookup_singleton);
  repeat case_decide; simplify_eq;
  repeat match goal with
         | H : ?d !! ?k = None |- context [?d !! ?k] => rewrite H
         end;
  simpl; try done;
  repeat match goal with
         | |- context [?d !! i] => destruct (d !! i)
         end;
  done.

Ltac finish_decoding :=
  match goal with
  | |- (?d, _) = (?u, _) => let E := fresh in assert (d = u) as E by left_over; rewrite E; clear E
  end.

Ltac split_apart :=
  repeat match goal with
         | H : apart_from _ _ |- _ =>
             unfold apart_from in H; rewrite ?Forall_cons in H
         | H : _ ∧ _ |- _ => destruct H
         end.

Lemma key_again (k : Key.t) :
  key_sound k →
  Key.from_dict (Key.to_dict k) = (Key.unrecognized_fields k, Ok k).
Proof.
  intros [Hapart Hpublic]. split_apart.
  unfold Key.from_dict, Key.to_dict. do 3 pop_step.
  unfold mbind, mutating_bind, self, pure, Key.init. simpl.
  rewrite Hpublic. finish_decoding. by destruct k.
Qed.

Lemma for_each_fmap {A B C} (f : C → result B) (g : A → C) (h : A → B)
    (l : list A) :
  Forall (λ a, f (g a) = Ok (h a)) l →
  for_each f (g <$> l) = Ok (h <$> l).
Proof.
  induction 1 as [|a l Ha _ IH]; [done|].
  change (for_each f (g <$> a :: l))
    with (f (g a) ≫= λ b, for_each f (g <$> l) ≫= λ bs, Ok (b :: bs)).
  by rewrite Ha, IH.
Qed.

Lemma for_items_fmap {A} (f : value → result A) (g : A → value)
    (m : gmap string A) :
  map_Forall (λ _ a, f (g a) = Ok a) m →
  for_items f (g <$> m) = Ok m.
Proof.
  intros Hm. unfold for_items. rewrite map_to_list_fmap.
  rewrite (for_each_fmap (λ kv : string * value, f kv.2 ≫= λ b, Ok (kv.1, b))
             (prod_map id g) id).
  - simpl. by rewrite list_fmap_id, list_to_map_to_list.
  - apply Forall_forall. intros [k a] Hka%elem_of_map_to_list. simpl.
    by rewrite (Hm k a Hka).
Qed.

Lemma role_init_again `{Runtime} (keyids : gset string) (threshold : value)
    (unrecognized_fields : dict) :
  set_order_exact →
  Role.init (str_list (set_order keyids)) threshold unrecognized_fields
  = Ok {| Role.keyids := keyids; Role.threshold := threshold;
          Role.unrecognized_fields := unrecognized_fields |}.
Proof.
  intros Horder. destruct (Horder keyids) as [Hnodup Hset].
  unfold Role.init. rewrite as_str_list_str_list. simpl. rewrite Hset.
  rewrite bool_decide_false; [done|].
  intros Hsize. apply Hsize. rewrite <- Hset at 1.
  by apply size_list_to_set_NoDup.
Qed.

Lemma role_again `{Runtime} (r : Role.t) :
  set_order_exact → role_sound r →
  Role.from_dict (Role.to_dict r) = (Role.unrecognized_fields r, Ok r).
Proof.
  intros Horder Hapart. unfold role_sound in Hapart. split_apart.
  unfold Role.from_dict, Role.to_dict. do 2 pop_step.
  unfold mbind, mutating_bind, self, pure.
  rewrite role_init_again by done. finish_decoding. by destruct r.
Qed.

Ltac pop_or_None_step :=
  erewrite bind_run; [|apply pop_or_None_present; read_known].

Ltac pop_nothing_step :=
  erewrite bind_run; [|apply pop_or_None_absent; read_known].

Lemma delegated_role_again `{Runtime} (r : DelegatedRole.t) :
  set_order_exact → delegated_role_sound r →
  DelegatedRole.from_dict (DelegatedRole.to_dict r)
  = (Role.unrecognized_fields (DelegatedRole.role r), Ok r).
Proof.
  intros Horder (Hapart & Hone & Hpaths & Hprefixes). split_apart.
  unfold DelegatedRole.from_dict, DelegatedRole.to_dict, Role.to_dict.
  cbv zeta.
  destruct (truthy (DelegatedRole.paths r)) eqn:Hp;
    [|destruct (truthy (DelegatedRole.path_hash_prefixes r)) eqn:Hq].
  - do 4 pop_step. pop_or_None_step. pop_nothing_step.
    unfold mbind, mutating_bind, self, pure, DelegatedRole.init.
    rewrite role_init_again by done. simpl in Hone.
    rewrite Hp. simpl.
    finish_decoding. destruct r as [[]]. simpl in *.
    by rewrite (Hprefixes Hone).
  - do 4 pop_step. pop_nothing_step. pop_or_None_step.
    unfold mbind, mutating_bind, self, pure, DelegatedRole.init.
    rewrite role_init_again by done.
    rewrite Hq. simpl.
    finish_decoding. destruct r as [[]]. simpl in *.
    by rewrite (Hpaths Hp).
  - do 4 pop_step. do 2 pop_nothing_step.
    unfold mbind, mutating_bind, self, pure, DelegatedRole.init.
    rewrite role_init_again by done. simpl.
    finish_decoding. destruct r as [[]]. simpl in *.
    by rewrite (Hpaths Hp), (Hprefixes Hq).
Qed.

Lemma key_from_value_again (k : Key.t) :
  key_sound k → from_value Key.from_dict (VDict (Key.to_dict k)) = Ok k.
Proof. intros Hk. unfold from_value. simpl. by rewrite key_again. Qed.

Lemma role_from_value_again `{Runtime} (r : Role.t) :
  set_order_exact → role_sound r →
  from_value Role.from_dict (VDict (Role.to_dict r)) = Ok r.
Proof. intros ? Hr. unfold from_value. simpl. by rewrite role_again. Qed.

Lemma delegated_role_from_value_again `{Runtime} (r : DelegatedRole.t) :
  set_order_exact → delegated_role_sound r →
  from_value DelegatedRole.from_dict (VDict (DelegatedRole.to_dict r)) = Ok r.
Proof.
  intros ? Hr. unfold from_value. simpl. by rewrite delegated_role_again.
Qed.

Lemma keys_again (keys : gmap string Key.t) :
  map_Forall (λ _, key_sound) keys →
  for_items (from_value Key.from_dict) ((λ key, VDict (Key.to_dict key)) <$> keys)
  = Ok keys.
Proof.
  intros Hkeys. apply for_items_fmap. intros id key Hkey.
  apply key_from_value_again, (Hkeys id key Hkey).
Qed.

Lemma delegations_again `{Runtime} (d : Delegations.t) :
  set_order_exact → delegations_sound d →
  Delegations.from_dict (Delegations.to_dict d)
  = (Delegations.unrecognized_fields d, Ok d).
Proof.
  intros Horder (Hapart & Hkeys & Hroles). split_apart.
  unfold Delegations.from_dict, Delegations.to_dict. cbv zeta.
  pop_step.
  erewrite bind_run;
    [|unfold pure; simpl; by rewrite keys_again].
  pop_step.
  erewrite bind_run;
    [|unfold pure; simpl;
      rewrite (for_each_fmap _ _ id), list_fmap_id; [done|];
      eapply Forall_impl; [exact Hroles|];
      intros r Hr; by apply delegated_role_from_value_again].
  unfold mbind, mutating_bind, self, mret, mutating_ret.
  finish_decoding. by destruct d.
Qed.

Lemma common_fields_run `{Runtime} (signed_type : string) (d : dict)
    (version spec_version expires_str : value) (expires : datetime) :
  d !! "_type" = Some (VStr signed_type) →
  d !! "version" = Some version →
  d !! "spec_version" = Some spec_version →
  d !! "expires" = Some expires_str →
  expiry_string_to_datetime expires_str = Ok expires →
  Signed._common_fields_from_dict signed_type d
  = (delete "expires" (delete "spec_version" (delete "version"
       (delete "_type" d))), Ok (version, spec_version, expires)).
Proof.
  intros Htype Hversion Hspec Hexpires Hparse.
  unfold Signed._common_fields_from_dict.
  erewrite bind_run by (by apply pop_present).
  unfold is_str. rewrite bool_decide_true by done.
  erewrite bind_run by (apply pop_present; by rewrite lookup_delete_ne).
  erewrite bind_run by (apply pop_present; by rewrite !lookup_delete_ne).
  erewrite bind_run by (apply pop_present; by rewrite !lookup_delete_ne).
  unfold mbind, mutating_bind, pure. by rewrite Hparse.
Qed.

Lemma signed_init_again (s : Signed.t) :
  0 < Signed.version s →
  Signed.init (VInt (Signed.version s)) (Signed.spec_version s)
    (Signed.expires s) (Signed.unrecognized_fields s) = Ok s.
Proof.
  intros Hpositive. unfold Signed.init. simpl.
  destruct (Z.leb_spec (Signed.version s) 0); [lia|]. by destruct s.
Qed.

Ltac common_step :=
  erewrite bind_run; [|eapply common_fields_run; [read_known..|eassumption]].

Lemma timestamp_again `{Runtime} (s : Timestamp.t) :
  signed_sound ["meta"] (Timestamp.signed s) →
  Timestamp.from_dict (Timestamp.to_dict s)
  = (Signed.unrecognized_fields (Timestamp.signed s), Ok s).
Proof.
  intros (Hapart & Hpositive & Hparse). simpl in Hapart. split_apart.
  unfold Timestamp.from_dict, Timestamp.to_dict, Signed._common_fields_to_dict.
  cbv zeta. common_step. cbv beta iota. pop_step.
  unfold mbind, mutating_bind, self, pure, Timestamp.init.
  finish_decoding. rewrite signed_init_again by done. by destruct s.
Qed.

Lemma snapshot_again `{Runtime} (s : Snapshot.t) :
  signed_sound ["meta"] (Snapshot.signed s) →
  Snapshot.from_dict (Snapshot.to_dict s)
  = (Signed.unrecognized_fields (Snapshot.signed s), Ok s).
Proof.
  intros (Hapart & Hpositive & Hparse). simpl in Hapart. split_apart.
  unfold Snapshot.from_dict, Snapshot.to_dict, Signed._common_fields_to_dict.
  cbv zeta. common_step. cbv beta iota. pop_step.
  unfold mbind, mutating_bind, self, pure, Snapshot.init.
  finish_decoding. rewrite signed_init_again by done. by destruct s.
Qed.

Lemma roles_again `{Runtime} (roles : gmap string Role.t) :
  set_order_exact →
  map_Forall (λ _, role_sound) roles →
  for_items (from_value Role.from_dict)
    ((λ role, VDict (Role.to_dict role)) <$> roles) = Ok roles.
Proof.
  intros Horder Hroles. apply for_items_fmap. intros name role Hrole.
  apply role_from_value_again; [done|]. apply (Hroles name role Hrole).
Qed.

Lemma root_again `{Runtime} (r : Root.t) :
  set_order_exact →
  payload_sound (ARoot r) →
  Root.from_dict (Root.to_dict r)
  = (Signed.unrecognized_fields (Root.signed r), Ok r).
Proof.
  intros Horder ((Hapart & Hpositive & Hparse) & Hkeys & Hroles).
  simpl in Hapart. split_apart.
  unfold Root.from_dict, Root.to_dict, Signed._common_fields_to_dict.
  cbv zeta. common_step. cbv beta iota. do 3 pop_step.
  erewrite bind_run; [|unfold pure; simpl; by rewrite keys_again].
  erewrite bind_run; [|unfold pure; simpl; by rewrite roles_again].
  unfold mbind, mutating_bind, self, pure, Root.init.
  finish_decoding. rewrite signed_init_again by done. by destruct r.
Qed.

Lemma delegations_to_dict_truthy `{Runtime} (d : Delegations.t) :
  truthy (VDict (Delegations.to_dict d)) = true.
Proof.
  assert (is_Some (Delegations.to_dict d !! "keys")) as [v Hv].
  { unfold Delegations.to_dict. cbv zeta. rewrite lookup_union.
    rewrite lookup_insert_eq. destruct (_ !! "keys"); by eexists. }
  simpl. apply negb_true_iff, bool_decide_eq_false. intros Hempty.
  by rewrite Hempty in Hv.
Qed.

Lemma targets_again `{Runtime} (s : Targets.t) :
  set_order_exact →
  payload_sound (ATargets s) →
  Targets.from_dict (Targets.to_dict s)
  = (Signed.unrecognized_fields (Targets.signed s), Ok s).
Proof.
  intros Horder ((Hapart & Hpositive & Hparse) & Hdelegations).
  simpl in Hapart. split_apart.
  unfold Targets.from_dict, Targets.to_dict, Signed._common_fields_to_dict.
  cbv zeta. destruct (Targets.delegations s) as [d|] eqn:Hd.
  - common_step. cbv beta iota. pop_step. pop_or_None_step.
    erewrite bind_run;
      [|unfold pure; rewrite delegations_to_dict_truthy; unfold from_value;
        simpl; by rewrite delegations_again].
    unfold mbind, mutating_bind, self, pure, Targets.init.
    finish_decoding. rewrite signed_init_again by done.
    destruct s. simpl in *. by rewrite Hd.
  - common_step. cbv beta iota. pop_step. pop_nothing_step.
    unfold mbind, mutating_bind, self, pure, Targets.init. simpl.
    finish_decoding. rewrite signed_init_again by done.
    destruct s. simpl in *. by rewrite Hd.
Qed.

Lemma payload_again `{Runtime} (signed : payload) :
  set_order_exact →
  payload_sound signed →
  class_from_dict (class_of signed) (payload_to_dict signed)
  = (Signed.unrecognized_fields (base signed), Ok signed).
Proof.
  intros Horder Hsound. destruct signed as [s|s|s|s]; simpl.
  - erewrite bind_run by (by apply targets_again). done.
  - erewrite bind_run by (by apply snapshot_again). done.
  - erewrite bind_run by (by apply timestamp_again). done.
  - erewrite bind_run by (by apply root_again). done.
Qed.

Lemma payload_type `{Runtime} (signed : payload) :
  payload_sound signed →
  payload_to_dict signed !! "_type" = Some (VStr (signed_type_of (class_of signed))).
Proof.
  destruct signed as [s|s|s|s]; simpl.
  - intros [(Hapart & _) _]. simpl in Hapart. split_apart.
    unfold Targets.to_dict, Signed._common_fields_to_dict. cbv zeta.
    destruct (Targets.delegations s); read_known.
  - intros (Hapart & _). simpl in Hapart. split_apart.
    unfold Snapshot.to_dict, Signed._common_fields_to_dict. cbv zeta.
    read_known.
  - intros (Hapart & _). simpl in Hapart. split_apart.
    unfold Timestamp.to_dict, Signed._common_fields_to_dict. cbv zeta.
    read_known.
  - intros [(Hapart & _) _]. simpl in Hapart. split_apart.
    unfold Root.to_dict, Signed._common_fields_to_dict. cbv zeta.
    read_known.
Qed.

Lemma dispatch_signed_type (cls : payload_class) :
  Metadata.dispatch (VStr (signed_type_of cls)) = Ok cls.
Proof. by destruct cls. Qed.

Lemma signatures_again (signatures : list Signature.t) :
  for_each Signature.from_dict
    ((λ sig, VDict (Signature.to_dict sig)) <$> signatures) = Ok signatures.
Proof.
  rewrite (for_each_fmap _ _ id), list_fmap_id; [done|].
  apply Forall_forall. intros [keyid sig] _. done.
Qed.

Lemma reference_set_order_exact : @set_order_exact Reference.runtime.
Proof.
  intros X. split; [apply NoDup_elements|]. simpl.
  apply set_eq. intros x. by rewrite elem_of_list_to_set, elem_of_elements.
Qed.

Lemma a_root_sound : @payload_sound Reference.runtime (ARoot a_root).
Proof.
  split; [|split].
  - split; [by repeat constructor|]. split; [done|]. vm_compute. reflexivity.
  - intros keyid key Hkey. unfold a_root in Hkey. simpl in Hkey.
    assert (key = a_key) as ->.
    { rewrite lookup_insert in Hkey. case_decide; simplify_eq; [done|].
      rewrite lookup_singleton in Hkey. by case_decide; simplify_eq. }
    split; [by repeat constructor|done].
  - intros name role Hrole. unfold a_root in Hrole. simpl in Hrole.
    rewrite lookup_insert in Hrole. case_decide; simplify_eq.
    + by repeat constructor.
    + rewrite lookup_singleton in Hrole. case_decide; simplify_eq.
      by repeat constructor.
Qed.

(** X20. A metadata object decodes from its own encoding:
    [Metadata.from_dict(md.to_dict())] builds an object with the fields of
    [md] and uses the record up, when the unrecognized fields of [md] use no
    name its classes read, the version is above 0, the expiry is one the
    parser reads back, every key has a truthy "public" value and no
    delegated role has two scopings or a falsy one other than [None]. *)
Theorem object_comes_back `{Runtime} (md : Metadata.t) :
  set_order_exact →
  payload_sound (Metadata.signed md) →
  Metadata.from_dict (Metadata.to_dict md) = (∅, Ok md).
Proof.
  intros Horder Hsound.
  unfold Metadata.from_dict, Metadata.to_dict. cbv zeta.
  erewrite bind_run; [|unfold getitem, subscript; read_known].
  erewrite bind_run; [|unfold pure; simpl; by rewrite payload_type].
  erewrite bind_run; [|unfold pure; by rewrite dispatch_signed_type].
  pop_step.
  erewrite bind_run; [|unfold pure; simpl; by rewrite signatures_again].
  pop_step.
  erewrite bind_run;
    [|unfold pure, from_value; simpl; by rewrite payload_again].
  unfold mret, mutating_ret. destruct md as [signed signatures]. simpl.
  by f_equal.
Qed.

Lemma object_comes_back_witness :
  @Metadata.from_dict Reference.runtime
    (@Metadata.to_dict Reference.runtime signed_by_k1)
  = ((∅ : dict), Ok signed_by_k1).
Proof.
  apply (@object_comes_back Reference.runtime signed_by_k1);
    [exact reference_set_order_exact | exact a_root_sound].
Defined.

(** X21. When [bump_expiration] succeeds the expiry is the sum with the
    delta and the version is as before; if the new expiry is not earlier
    than the old one, then at no reference time is the object expired after
    the call without having been expired before it. *)
Theorem bump_expiration_postpones (plus_delta : datetime → result datetime)
    (utcnow t : datetime) (s s' : Signed.t) :
  Signed.bump_expiration plus_delta s = (s', Ok ()) →
  well_formed t = true →
  well_formed (Signed.expires s) = true →
  well_formed (Signed.expires s') = true →
  instant (Signed.expires s) ≤ instant (Signed.expires s') →
  plus_delta (Signed.expires s) = Ok (Signed.expires s') ∧
  Signed.version s' = Signed.version s ∧
  (Signed.is_expired utcnow s' (Some t) = true →
   Signed.is_expired utcnow s (Some t) = true).
Proof.
  intros Hrun Ht Hs Hs' Hlater. unfold Signed.bump_expiration in Hrun.
  destruct (plus_delta (Signed.expires s)) as [e|] eqn:Hsum; [|done].
  simplify_eq. simpl in *. split; [done|]. split; [done|].
  unfold Signed.is_expired, datetime_ge. simpl.
  rewrite !datetime_cmp_instant by done.
  destruct (Z.compare_spec (instant t) (instant e)),
    (Z.compare_spec (instant t) (instant (Signed.expires s))); (done || lia).
Qed.

Lemma bump_expiration_postpones_witness :
  let s := expiring (at_midnight 2030 1 1) in
  let s' := expiring (at_midnight 2031 1 1) in
  let utcnow := at_midnight 2026 1 1 in
  let t := at_midnight 2030 6 1 in
  plus_one_year (Signed.expires s) = Ok (Signed.expires s') ∧
  Signed.version s' = Signed.version s ∧
  (Signed.is_expired utcnow s' (Some t) = true →
   Signed.is_expired utcnow s (Some t) = true).
Proof.
  cbv zeta.
  apply (bump_expiration_postpones plus_one_year (at_midnight 2026 1 1)
           (at_midnight 2030 6 1) (expiring (at_midnight 2030 1 1))
           (expiring (at_midnight 2031 1 1)));
    [reflexivity | reflexivity | reflexivity | reflexivity | by vm_compute].
Defined.
